(** * SS58 address codec of the chainflip product toolkit

    A shallow embedding of the SS58 module of the utils package (the one
    other packages import as [@chainflip/utils/ss58]): its constants,
    [computeChecksum], [decode] and [encode], together with the properties
    of the codec.

    - JavaScript numbers are modelled as integers ([Z]), fractions and NaN
      are left out; the bitwise operators go through [ToInt32] as the
      language defines them.
    - A JavaScript array of numbers is a [list Z]; reading an index that is
      out of range gives [undefined], so an indexed read is a [value].
    - A [Uint8Array] is a [list Z] whose construction reduces every element
      modulo 256.
    - The two imported collaborators, the base-58 codec and [blake2b], are
      the fields of the class [Externals]. *)

From Stdlib Require Import String Ascii ZArith List Bool Lia.
Import ListNotations.

Local Open Scope Z_scope.

(* ------------------------------------------------------------------ *)
(** ** JavaScript values and operators *)

Module JS.

(** What an indexed read of a number array can give. *)
Inductive value : Type :=
| undefined : value
| number (z : Z) : value.

Definition value_eqb (a b : value) : bool :=
  match a, b with
  | undefined, undefined => true
  | number x, number y => x =? y
  | _, _ => false
  end.

(** [ToInt32] on an integral number: reduction modulo 2^32 into
    [-2^31, 2^31). *)
Definition wrap32 (z : Z) : Z :=
  let m := z mod 4294967296 in
  if m <? 2147483648 then m else m - 4294967296.

(** [ToInt32] on a value: [undefined] converts to NaN and then to 0. *)
Definition ToInt32 (v : value) : Z :=
  match v with
  | undefined => 0
  | number z => wrap32 z
  end.

(** [a & b] *)
Definition band (a b : value) : Z := Z.land (ToInt32 a) (ToInt32 b).
(** [a | b] *)
Definition bor (a b : value) : Z := Z.lor (ToInt32 a) (ToInt32 b).
(** [a << n]: the shift count is taken modulo 32 and the result wraps. *)
Definition shl (a n : value) : Z :=
  wrap32 (Z.shiftl (ToInt32 a) (ToInt32 n mod 32)).
(** [a >> n]: sign-propagating right shift. *)
Definition sar (a n : value) : Z :=
  Z.shiftr (ToInt32 a) (ToInt32 n mod 32).

(** [a >= b] and [a <= b]; a comparison with [undefined] is false. *)
Definition ge (a b : value) : bool :=
  match a, b with
  | number x, number y => y <=? x
  | _, _ => false
  end.
Definition le (a b : value) : bool :=
  match a, b with
  | number x, number y => x <=? y
  | _, _ => false
  end.

(** [a === b] *)
Definition strict_eq (a b : value) : bool := value_eqb a b.

(** [arr[i]] *)
Definition index (arr : list Z) (i : nat) : value :=
  match nth_error arr i with
  | Some z => number z
  | None => undefined
  end.

(** [arr.includes(v)] on an array of numbers. *)
Definition includes (arr : list Z) (v : value) : bool :=
  existsb (fun z => value_eqb (number z) v) arr.

(** [arr.splice(-n)]: removes the last [n] elements (all of them when the
    array is shorter) and returns them; the pair is
    (removed elements, array left behind). *)
Definition splice_last (arr : list Z) (n : nat) : list Z * list Z :=
  let start := (length arr - n)%nat in
  (skipn start arr, firstn start arr).

(** [arr.slice(k)] *)
Definition slice_from (arr : list Z) (k : nat) : list Z := skipn k arr.

(** [arr.slice(0, k)] *)
Definition slice_to (arr : list Z) (k : nat) : list Z := firstn k arr.

(** [new Uint8Array(arr)] *)
Definition Uint8Array (arr : list Z) : list Z :=
  map (fun z => z mod 256) arr.

End JS.

Import JS.
Coercion number : Z >-> value.

(** A byte, as an element of a [Uint8Array]. *)
Definition is_byte (z : Z) : Prop := 0 <= z <= 255.

Definition is_byteb (z : Z) : bool := (0 <=? z) && (z <=? 255).

(* ------------------------------------------------------------------ *)
(** ** Failures *)

(** The error class handed to [assert] (its third argument; [Error] when the
    call gives none). *)
Inductive error_class : Type :=
| ErrorClass
| RangeErrorClass.

(** The messages of the assertions, with the values they print:
    - [InvalidDataLength n]: "Invalid data length: n"
    - [InvalidFormatRange v]: "Invalid prefix: v"
    - [ReservedFormat v]: "Reserved prefix: v"
    - [ChecksumMismatch a b]: "Invalid checksum: a !== b" *)
Inductive message : Type :=
| InvalidDataLength (n : nat)
| InvalidFormatRange (v : value)
| ReservedFormat (v : value)
| ChecksumMismatch (got expected : value).

Inductive failure : Type :=
| InvalidBase58
| AssertionFailure (c : error_class) (m : message).

Inductive result (A : Type) : Type :=
| Ok (a : A)
| Throw (e : failure).

Arguments Ok {A} a.
Arguments Throw {A} e.

Definition bind {A B : Type} (r : result A) (k : A -> result B) : result B :=
  match r with
  | Ok a => k a
  | Throw e => Throw e
  end.

Notation "x <- r ;; k" := (bind r (fun x => k))
  (at level 61, r at next level, right associativity).
Notation "r ;;; k" := (bind r (fun _ => k))
  (at level 61, right associativity).

(** Modelled from the spec: the helper [assert] of [./assertion] is not
    among the sources.  Following its call sites and the error-handling
    section, [assert(condition, message, Class)] aborts the call with the
    failure that the message names when the condition is false, and does
    nothing otherwise. *)
Definition assert (cond : bool) (c : error_class) (m : message) : result unit :=
  if cond then Ok tt else Throw (AssertionFailure c m).

(* ------------------------------------------------------------------ *)
(** ** The collaborators *)

(** The module [./base58] and the hash library are not part of the codec
    and are taken as parameters.  [base58.decode] returns an array of
    numbers or throws on text outside its alphabet ([None]);
    [base58.encode] and [blake2b] are total. *)
Class Externals : Type := {
  base58_decode : string -> option (list Z);
  base58_encode : list Z -> string;
  blake2b : list Z -> list Z
}.

(* ------------------------------------------------------------------ *)
(** ** The codec *)

Definition CHECKSUM_BYTE_LENGTH : nat := 2.
Definition DATA_LENGTH : nat := 32.
Definition MAX_SIMPLE_PREFIX : Z := 0x3f.
Definition MAX_PREFIX : Z := 0x3fff.
Definition RESERVED_PREFIXES : list Z := [46; 47].

Record Address : Type := {
  data : list Z;
  ss58Format : value
}.

Definition checksumPrefix : list Z := [83; 83; 53; 56; 80; 82; 69].

Section Codec.

Context {E : Externals}.

Definition computeChecksum (data : list Z) : list Z :=
  let checksum := blake2b (Uint8Array (checksumPrefix ++ data)) in
  slice_to checksum CHECKSUM_BYTE_LENGTH.

(** The branch of [decode] that reads the network identifier: the pair
    [(ss58FormatLen, ss58Format)] from the first two array elements. *)
Definition unpack (d0 d1 : value) : nat * value :=
  if negb (band d0 0x40 =? 0) then
    (2%nat,
     number (bor (bor (shl (band d0 0x3f) 2) (sar d1 6))
                 (shl (band d1 0x3f) 8)))
  else
    (1%nat, d0).

(** [decode] after the call of [base58.decode], on the array it returned.
    The second [decodedBytes] is the array after [splice] has shortened
    it in place. *)
Definition decode_bytes (decodedBytes : list Z) : result Address :=
  let '(ss58FormatLen, ss58Format) :=
    unpack (index decodedBytes 0) (index decodedBytes 1) in
  assert (negb (includes RESERVED_PREFIXES ss58Format))
         ErrorClass (ReservedFormat ss58Format) ;;;
  let '(checksumBytes, decodedBytes) :=
    splice_last decodedBytes CHECKSUM_BYTE_LENGTH in
  let data := slice_from decodedBytes ss58FormatLen in
  assert (length data =? DATA_LENGTH)%nat
         ErrorClass (InvalidDataLength (length data)) ;;;
  let checksum := computeChecksum decodedBytes in
  assert (strict_eq (index checksumBytes 0) (index checksum 0))
         ErrorClass
         (ChecksumMismatch (index checksumBytes 0) (index checksum 0)) ;;;
  assert (strict_eq (index checksumBytes 1) (index checksum 1))
         ErrorClass
         (ChecksumMismatch (index checksumBytes 1) (index checksum 1)) ;;;
  Ok {| data := Uint8Array data; ss58Format := ss58Format |}.

Definition decode (input : string) : result Address :=
  match base58_decode input with
  | None => Throw InvalidBase58
  | Some decodedBytes => decode_bytes decodedBytes
  end.

(** The slice that [decode] takes as the data: what is left of the decoded
    array without its last two elements and without the prefix. *)
Definition dataSlice (decodedBytes : list Z) : list Z :=
  slice_from (snd (splice_last decodedBytes CHECKSUM_BYTE_LENGTH))
             (fst (unpack (index decodedBytes 0) (index decodedBytes 1))).

(** The branch of [encode] that builds [prefixBytes]. *)
Definition pack (ss58Format : Z) : list Z :=
  if le ss58Format MAX_SIMPLE_PREFIX then
    [ss58Format]
  else
    [bor (sar (band ss58Format 0x00fc) 2) 0x0040;
     bor (sar ss58Format 8) (shl (band ss58Format 0x0003) 6)].

(** The array that [encode] hands to [base58.encode]. *)
Definition wirePayload (data : list Z) (ss58Format : Z) : list Z :=
  let prefixBytes := pack ss58Format in
  let checksum := computeChecksum (Uint8Array (prefixBytes ++ data)) in
  prefixBytes ++ data ++ checksum.

Definition encode (a : Address) : result string :=
  let data := a.(data) in
  let ss58Format := a.(ss58Format) in
  assert (length data =? DATA_LENGTH)%nat
         RangeErrorClass (InvalidDataLength (length data)) ;;;
  assert (ge ss58Format 0 && le ss58Format MAX_PREFIX)
         RangeErrorClass (InvalidFormatRange ss58Format) ;;;
  assert (negb (includes RESERVED_PREFIXES ss58Format))
         ErrorClass (ReservedFormat ss58Format) ;;;
  match ss58Format with
  | number f => Ok (base58_encode (wirePayload data f))
  | undefined =>
      (* not reached: [undefined >= 0] is false, the range assertion above
         has thrown *)
      Throw (AssertionFailure RangeErrorClass (InvalidFormatRange undefined))
  end.

(** What the properties ask of the collaborators: the digest has at
    least the two bytes of the checksum, and the base-58 decoder reads
    back an array that the encoder wrote. *)
Definition digest_long_enough : Prop :=
  forall m, (CHECKSUM_BYTE_LENGTH <= length (blake2b m))%nat.

Definition base58_reads_back (bytes : list Z) : Prop :=
  base58_decode (base58_encode bytes) = Some bytes.

(** Membership in [RESERVED_PREFIXES], as a proposition. *)
Definition reserved (v : value) : Prop := v = number 46 \/ v = number 47.

End Codec.

(* ------------------------------------------------------------------ *)
(** ** Predicates and decidable checks used in the statements *)

Definition in_format_range (f : Z) : Prop := 0 <= f <= MAX_PREFIX.

(** The integers [lo], [lo + 1], ..., [lo + n - 1]. *)
Fixpoint Zrange (lo : Z) (n : nat) : list Z :=
  match n with
  | O => []
  | S k => lo :: Zrange (lo + 1) k
  end.

(** The values an indexed read of a byte array can give. *)
Definition byte_read (v : value) : Prop :=
  match v with
  | undefined => True
  | number z => is_byte z
  end.

Definition byte_reads : list value := undefined :: map number (Zrange 0 256).

(** The tests behind the prefix lemmas: the simple form is read back as
    simple, the extended form is read back as the format it was built
    from, and a format read from bytes stays within 14 bits. *)
Definition simple_form_ok (f : Z) : bool := band f 0x40 =? 0.

Definition extended_form_ok (f : Z) : bool :=
  match pack f with
  | [b0; b1] =>
      is_byteb b0 && is_byteb b1 &&
      let '(n, v) := unpack b0 b1 in
      (n =? 2)%nat && value_eqb v f
  | _ => false
  end.

Definition unpack_bound_ok (d0 d1 : value) : bool :=
  let '(n, v) := unpack d0 d1 in
  ((n =? 1)%nat || (n =? 2)%nat) &&
  match v with
  | number f => (0 <=? f) && (f <=? 16383)
  | undefined => value_eqb d0 undefined
  end.

(* ------------------------------------------------------------------ *)
(** ** Reference collaborators

    Executable stand-ins for the two collaborators, used to run the codec
    on concrete addresses.  The properties below are proved for every
    instance of [Externals]; these two only supply the concrete inputs. *)

(** RFC 7693 BLAKE2b, unkeyed, with the 64-byte digest that [blake2b] of
    the hash library gives when called with the message alone. *)
Module Blake2b.

Definition mask64 : Z := 0xffffffffffffffff.
Definition add64 (a b : Z) : Z := Z.land (a + b) mask64.
Definition rotr64 (x : Z) (n : Z) : Z :=
  Z.lor (Z.shiftr x n) (Z.land (Z.shiftl x (64 - n)) mask64).

Definition IV : list Z :=
  [0x6a09e667f3bcc908; 0xbb67ae8584caa73b; 0x3c6ef372fe94f82b;
   0xa54ff53a5f1d36f1; 0x510e527fade682d1; 0x9b05688c2b3e6c1f;
   0x1f83d9abfb41bd6b; 0x5be0cd19137e2179].

Definition SIGMA : list (list nat) :=
  [[0; 1; 2; 3; 4; 5; 6; 7; 8; 9; 10; 11; 12; 13; 14; 15];
   [14; 10; 4; 8; 9; 15; 13; 6; 1; 12; 0; 2; 11; 7; 5; 3];
   [11; 8; 12; 0; 5; 2; 15; 13; 10; 14; 3; 6; 7; 1; 9; 4];
   [7; 9; 3; 1; 13; 12; 11; 14; 2; 6; 5; 10; 4; 0; 15; 8];
   [9; 0; 5; 7; 2; 4; 10; 15; 14; 1; 11; 12; 6; 8; 3; 13];
   [2; 12; 6; 10; 0; 11; 8; 3; 4; 13; 7; 5; 15; 14; 1; 9];
   [12; 5; 1; 15; 14; 13; 4; 10; 0; 7; 6; 3; 9; 2; 8; 11];
   [13; 11; 7; 14; 12; 1; 3; 9; 5; 0; 15; 4; 8; 6; 2; 10];
   [6; 15; 14; 9; 11; 3; 0; 8; 12; 2; 13; 7; 1; 4; 10; 5];
   [10; 2; 8; 4; 7; 6; 1; 5; 15; 11; 9; 14; 3; 12; 13; 0]]%nat.

Definition get (v : list Z) (i : nat) : Z := nth i v 0.

Fixpoint set (v : list Z) (i : nat) (x : Z) : list Z :=
  match v, i with
  | [], _ => []
  | _ :: t, O => x :: t
  | h :: t, S j => h :: set t j x
  end.

Definition G (v : list Z) (a b c d : nat) (x y : Z) : list Z :=
  let v := set v a (add64 (add64 (get v a) (get v b)) x) in
  let v := set v d (rotr64 (Z.lxor (get v d) (get v a)) 32) in
  let v := set v c (add64 (get v c) (get v d)) in
  let v := set v b (rotr64 (Z.lxor (get v b) (get v c)) 24) in
  let v := set v a (add64 (add64 (get v a) (get v b)) y) in
  let v := set v d (rotr64 (Z.lxor (get v d) (get v a)) 16) in
  let v := set v c (add64 (get v c) (get v d)) in
  set v b (rotr64 (Z.lxor (get v b) (get v c)) 63).

Definition round (m : list Z) (v : list Z) (r : nat) : list Z :=
  let s := nth (r mod 10) SIGMA [] in
  let w (i : nat) := get m (nth i s O) in
  let v := G v 0 4 8 12 (w 0%nat) (w 1%nat) in
  let v := G v 1 5 9 13 (w 2%nat) (w 3%nat) in
  let v := G v 2 6 10 14 (w 4%nat) (w 5%nat) in
  let v := G v 3 7 11 15 (w 6%nat) (w 7%nat) in
  let v := G v 0 5 10 15 (w 8%nat) (w 9%nat) in
  let v := G v 1 6 11 12 (w 10%nat) (w 11%nat) in
  let v := G v 2 7 8 13 (w 12%nat) (w 13%nat) in
  G v 3 4 9 14 (w 14%nat) (w 15%nat).

(** Little-endian word of eight bytes. *)
Fixpoint le_word (bs : list Z) : Z :=
  match bs with
  | [] => 0
  | b :: t => b + 256 * le_word t
  end.

Fixpoint le_bytes (n : nat) (w : Z) : list Z :=
  match n with
  | O => []
  | S k => (w mod 256) :: le_bytes k (w / 256)
  end.

Fixpoint words (n : nat) (bs : list Z) : list Z :=
  match n with
  | O => []
  | S k => le_word (firstn 8 bs) :: words k (skipn 8 bs)
  end.

(** The compression function F. *)
Definition F (h : list Z) (block : list Z) (t : Z) (last : bool) : list Z :=
  let m := words 16 block in
  let v := h ++ IV in
  let v := set v 12 (Z.lxor (get v 12) (Z.land t mask64)) in
  let v := set v 13 (Z.lxor (get v 13) (Z.shiftr t 64)) in
  let v := if last then set v 14 (Z.lxor (get v 14) mask64) else v in
  let v := fold_left (round m) (seq 0 12) v in
  map (fun i => Z.lxor (Z.lxor (get h i) (get v i)) (get v (i + 8)))
      (seq 0 8).

Definition pad (bs : list Z) : list Z :=
  bs ++ repeat 0 (128 - length bs).

(** Absorbs the message block by block; [fuel] bounds the number of
    blocks. *)
Fixpoint absorb (fuel : nat) (h : list Z) (t : Z) (bs : list Z) : list Z :=
  match fuel with
  | O => h
  | S k =>
      if (length bs <=? 128)%nat then
        F h (pad bs) (t + Z.of_nat (length bs)) true
      else
        absorb k (F h (firstn 128 bs) (t + 128) false) (t + 128)
               (skipn 128 bs)
  end.

(** Unkeyed BLAKE2b with a 64-byte digest. *)
Definition hash (bs : list Z) : list Z :=
  let h0 := set IV 0 (Z.lxor (get IV 0) 0x01010040) in
  let h := absorb (S (length bs)) h0 0 bs in
  concat (map (le_bytes 8) h).

End Blake2b.

(** Modelled from the spec: the module [./base58] is not among the sources
    and the spec gives only its contract (text to bytes, failing outside
    the alphabet; bytes to text, total).  This is the usual base-58 over the
    Bitcoin alphabet: leading zero bytes map to leading '1' characters, the
    rest is the big-endian number in base 58. *)
Module Base58.

Definition CHARSET : list ascii :=
  list_ascii_of_string
    "123456789ABCDEFGHJKLMNPQRSTUVWXYZabcdefghijkmnopqrstuvwxyz".

Fixpoint leading {A : Type} (is0 : A -> bool) (l : list A) : nat :=
  match l with
  | x :: t => if is0 x then S (leading is0 t) else O
  | [] => O
  end.

(** Big-endian value of a digit sequence in base [b]. *)
Definition of_digits (b : Z) (ds : list Z) : Z :=
  fold_left (fun acc d => acc * b + d) ds 0.

(** Big-endian digits of [n] in base [b], without leading zero digits. *)
Fixpoint to_digits (fuel : nat) (b : Z) (n : Z) (acc : list Z) : list Z :=
  match fuel with
  | O => acc
  | S k => if n <=? 0 then acc else to_digits k b (n / b) (n mod b :: acc)
  end.

Fixpoint char_index (c : ascii) (cs : list ascii) : option Z :=
  match cs with
  | [] => None
  | x :: t =>
      if Ascii.eqb c x then Some 0
      else option_map Z.succ (char_index c t)
  end.

Fixpoint digits_of_chars (cs : list ascii) : option (list Z) :=
  match cs with
  | [] => Some []
  | c :: t =>
      match char_index c CHARSET, digits_of_chars t with
      | Some d, Some ds => Some (d :: ds)
      | _, _ => None
      end
  end.

Definition encode (bytes : list Z) : string :=
  let zeros := leading (Z.eqb 0) bytes in
  let n := of_digits 256 bytes in
  let ds := to_digits (2 * length bytes) 58 n [] in
  string_of_list_ascii
    (repeat "1"%char zeros
     ++ map (fun d => nth (Z.to_nat d) CHARSET "1"%char) ds).

Definition decode (input : string) : option (list Z) :=
  let cs := list_ascii_of_string input in
  match digits_of_chars cs with
  | None => None
  | Some ds =>
      let zeros := leading (Z.eqb 0) ds in
      let n := of_digits 58 ds in
      Some (repeat 0 zeros ++ to_digits (length ds) 256 n [])
  end.

End Base58.

(** The collaborators put together. *)
#[export] Instance reference_externals : Externals := {|
  base58_decode := Base58.decode;
  base58_encode := Base58.encode;
  blake2b := Blake2b.hash
|}.

(* ------------------------------------------------------------------ *)
(** ** Concrete addresses *)

(** The well-known development account of Substrate chains, format 42. *)
Definition alice_text : string :=
  "5GrwvaEF5zXb26Fz9rcQpDWS57CtERHpNehXCPcNoHGKutQY".

Definition alice_data : list Z :=
  [212; 53; 147; 199; 21; 253; 211; 28; 97; 20; 26; 189; 4; 169; 159; 214;
   130; 44; 133; 88; 133; 76; 205; 227; 154; 86; 132; 231; 165; 109; 162;
   125].

Definition zero_data : list Z := repeat 0 32.

(** Format 46 over 32 zero bytes with the checksum that belongs to them. *)
Definition reserved_text : string :=
  "5bDLtduYgPESBhcLfVU6NTEYjKaXXRxwgGV3JSarJLMRwvxb".

(** Format 0 written in extended form, and format 128 written in simple
    form, each over 32 zero bytes with the checksum that belongs to them. *)
Definition extended_zero_text : string :=
  "VBo4N1TrfonTPvj9QVzL9hEH9vuviDhQmXZYAyVv16dA1zjSN".


(* ------------------------------------------------------------------ *)
(** ** Callers: the address helpers of the extrinsics package

    [toEncodedAddress], [toForeignChainAddress] and
    [encodeRefundParameters] of [extrinsics/generated/160/common.ts], which
    call [ss58.decode] and [base58.decode]. *)

Inductive ChainflipAsset : Type :=
| Eth | Flip | Usdc | Dot | Btc | ArbEth | ArbUsdc | Usdt | Sol | SolUsdc.

Inductive ChainflipNetwork : Type :=
| mainnet | perseverance | sisyphos | backspin.

(** The schema [chainflipAsset] on an object with the string fields [chain]
    and [asset]: the union takes the first of its ten literal pairs that
    matches and gives the name its transform returns; no match is a parse
    failure ([None]). *)
Definition chainflipAsset (chain asset : string) : option ChainflipAsset :=
  if (chain =? "Ethereum")%string && (asset =? "ETH")%string then Some Eth
  else if (chain =? "Ethereum")%string && (asset =? "FLIP")%string
  then Some Flip
  else if (chain =? "Ethereum")%string && (asset =? "USDC")%string
  then Some Usdc
  else if (chain =? "Polkadot")%string && (asset =? "DOT")%string
  then Some Dot
  else if (chain =? "Bitcoin")%string && (asset =? "BTC")%string
  then Some Btc
  else if (chain =? "Arbitrum")%string && (asset =? "ETH")%string
  then Some ArbEth
  else if (chain =? "Arbitrum")%string && (asset =? "USDC")%string
  then Some ArbUsdc
  else if (chain =? "Ethereum")%string && (asset =? "USDT")%string
  then Some Usdt
  else if (chain =? "Solana")%string && (asset =? "SOL")%string
  then Some Sol
  else if (chain =? "Solana")%string && (asset =? "USDC")%string
  then Some SolUsdc
  else None.

(** The table [assetToShortChain] inside [toEncodedAddress]. *)
Definition assetToShortChain (asset : ChainflipAsset) : string :=
  match asset with
  | Eth => "eth"
  | Flip => "eth"
  | Usdc => "eth"
  | Usdt => "eth"
  | ArbEth => "arb"
  | ArbUsdc => "arb"
  | Dot => "dot"
  | Sol => "sol"
  | SolUsdc => "sol"
  | Btc => "btc"
  end.

(** The imports of [common.ts] besides the two codecs, taken as parameters:
    [hexToBytes] and [bytesToHex] of the bytes module, the UTF-8 encoding
    of [TextEncoder], and [tryParseAddress] of the bitcoin package, which
    returns [null] ([None]) or an object with a [type] and [data]. *)
Class AddressExternals : Type := {
  BitcoinData : Type;
  hexToBytes : string -> option (list Z);
  bytesToHex : list Z -> string;
  utf8Encode : string -> list Z;
  tryParseAddress :
    string -> ChainflipNetwork -> option (string * BitcoinData)
}.

(** What a call of the helpers can throw: what [ss58.decode] threw, a
    failure of [base58.decode] or of [hexToBytes], and the error "Failed to
    parse bitcoin address". *)
Inductive thrown : Type :=
| FromSs58 (e : failure)
| FromBase58
| FromHexToBytes
| FailedToParseBitcoinAddress.

Inductive outcome (A : Type) : Type :=
| Returned (a : A)
| Thrown (e : thrown).

Arguments Returned {A} a.
Arguments Thrown {A} e.

(** The value under the computed key: bytes or, for Bitcoin, hex text. *)
Inductive encoded_value : Type :=
| Bytes (bs : list Z)
| Hex (s : string).

(** The object [{ [shortChain]: encoded }]. *)
Record EncodedAddress : Type := {
  shortChain : string;
  encoded : encoded_value
}.

Record RefundInput : Type := {
  retryDuration : Z;
  refundAddress : string;
  minPrice : string
}.

Section Callers.

Context {E : Externals} {X : AddressExternals}.

(** [{ btc: { [type]: data } }] or the object of [toEncodedAddress]. *)
Inductive ForeignChainAddress : Type :=
| EncodedForm (e : EncodedAddress)
| BitcoinForm (type : string) (script : BitcoinData).

Record RefundParameters : Type := {
  retry_duration : Z;
  min_price : string;
  refund_address : ForeignChainAddress
}.

Definition fromHex (asset : ChainflipAsset) (address : string)
  : outcome EncodedAddress :=
  match hexToBytes address with
  | Some bs =>
      Returned {| shortChain := assetToShortChain asset;
                  encoded := Bytes bs |}
  | None => Thrown FromHexToBytes
  end.

Definition toEncodedAddress (address : string) (asset : ChainflipAsset)
  : outcome EncodedAddress :=
  match asset with
  | ArbEth | ArbUsdc | Eth | Flip | Usdc | Usdt => fromHex asset address
  | Dot =>
      if prefix "0x" address then fromHex asset address
      else
        match decode address with
        | Ok a =>
            Returned {| shortChain := assetToShortChain asset;
                        encoded := Bytes a.(data) |}
        | Throw e => Thrown (FromSs58 e)
        end
  | Sol | SolUsdc =>
      if prefix "0x" address then fromHex asset address
      else
        match base58_decode address with
        | Some bs =>
            Returned {| shortChain := assetToShortChain asset;
                        encoded := Bytes bs |}
        | None => Thrown FromBase58
        end
  | Btc =>
      Returned {| shortChain := assetToShortChain asset;
                  encoded := Hex (bytesToHex (utf8Encode address)) |}
  end.

Definition toForeignChainAddress
           (address : string) (asset : ChainflipAsset)
           (chainflipNetwork : ChainflipNetwork)
  : outcome ForeignChainAddress :=
  match asset with
  | ArbEth | ArbUsdc | Eth | Flip | Usdc | Usdt | Sol | SolUsdc | Dot =>
      match toEncodedAddress address asset with
      | Returned e => Returned (EncodedForm e)
      | Thrown e => Thrown e
      end
  | Btc =>
      match tryParseAddress address chainflipNetwork with
      | None => Thrown FailedToParseBitcoinAddress
      | Some (type, script) => Returned (BitcoinForm type script)
      end
  end.

Definition encodeRefundParameters
           (params : RefundInput) (asset : ChainflipAsset)
           (chainflipNetwork : ChainflipNetwork)
  : outcome RefundParameters :=
  match toForeignChainAddress params.(refundAddress) asset
                              chainflipNetwork with
  | Returned addr =>
      Returned {| retry_duration := params.(retryDuration);
                  min_price := params.(minPrice);
                  refund_address := addr |}
  | Thrown e => Thrown e
  end.

End Callers.

(** Modelled from the spec: the bytes module, [TextEncoder] and the bitcoin
    package are not among the sources, and the spec leaves them out as
    downstream code.  These stand-ins serve concrete runs only, and no
    property depends on them: hex text is "0x" followed by two digits per
    byte, read in either case and written in lower case; text is encoded
    byte by byte; no bitcoin address parses. *)
Module Hex.

Definition DIGITS : list ascii := list_ascii_of_string "0123456789abcdef".

Definition digit (z : Z) : ascii := nth (Z.to_nat z) DIGITS "0"%char.

Fixpoint digits (bs : list Z) : list ascii :=
  match bs with
  | [] => []
  | b :: t => digit (b / 16) :: digit (b mod 16) :: digits t
  end.

Definition bytesToHex (bs : list Z) : string :=
  String "0" (String "x" (string_of_list_ascii (digits bs))).

Definition UPPER_DIGITS : list ascii :=
  list_ascii_of_string "0123456789ABCDEF".

Definition nibble (c : ascii) : option Z :=
  match Base58.char_index c DIGITS with
  | Some d => Some d
  | None => Base58.char_index c UPPER_DIGITS
  end.

Fixpoint bytes (cs : list ascii) : option (list Z) :=
  match cs with
  | [] => Some []
  | hi :: lo :: t =>
      match nibble hi, nibble lo, bytes t with
      | Some h, Some l, Some bs => Some (16 * h + l :: bs)
      | _, _, _ => None
      end
  | _ => None
  end.

Definition hexToBytes (s : string) : option (list Z) :=
  match s with
  | String "0" (String "x" t) => bytes (list_ascii_of_string t)
  | _ => None
  end.

Definition utf8Encode (s : string) : list Z :=
  map (fun c => Z.of_N (N_of_ascii c)) (list_ascii_of_string s).

End Hex.

#[export] Instance reference_address_externals : AddressExternals := {|
  BitcoinData := string;
  hexToBytes := Hex.hexToBytes;
  bytesToHex := Hex.bytesToHex;
  utf8Encode := Hex.utf8Encode;
  tryParseAddress := fun _ _ => None
|}.

(** The account of [alice_text] written for format 0. *)
Definition alice_polkadot_text : string :=
  "15oF4uVJwmo4TdGW7VfQxNLavjCXviqxT9S1MgbjMNHr6Sp5".

(** [alice_text] with its last character changed. *)
Definition alice_corrupt_text : string :=
  "5GrwvaEF5zXb26Fz9rcQpDWS57CtERHpNehXCPcNoHGKutQZ".

(** The tests behind the lemmas on the first prefix byte: which first bytes
    are read in simple form, that bit 7 is dropped in extended form, and
    that the first byte written for a format stays below 128. *)
Definition read_eqb (r1 r2 : nat * value) : bool :=
  (fst r1 =? fst r2)%nat && value_eqb (snd r1) (snd r2).

Definition first_byte_form_ok (b0 : Z) (d1 : value) : bool :=
  if (b0 <=? 63) || ((128 <=? b0) && (b0 <=? 191)) then
    read_eqb (unpack b0 d1) (1%nat, number b0)
  else
    (fst (unpack b0 d1) =? 2)%nat &&
    (if 192 <=? b0 then read_eqb (unpack b0 d1) (unpack (b0 - 128) d1)
     else true).

Definition first_byte_written_ok (f : Z) : bool :=
  match pack f with
  | b0 :: _ =>
      if f <=? 63 then b0 =? f else (64 <=? b0) && (b0 <=? 127)
  | [] => false
  end.

(* ------------------------------------------------------------------ *)
(** ** Checking a decidable property on a whole range *)

Lemma In_Zrange (n : nat) :
  forall lo z, lo <= z < lo + Z.of_nat n -> In z (Zrange lo n).
Proof.
  induction n as [|n IH]; intros lo z Hz; [lia|].
  simpl; destruct (Z.eq_dec lo z) as [->|Hne]; [now left|right].
  apply IH; lia.
Qed.

Lemma forallb_Zrange (P : Z -> bool) (lo : Z) (n : nat) :
  forallb P (Zrange lo n) = true ->
  forall z, lo <= z < lo + Z.of_nat n -> P z = true.
Proof.
  intros Hall z Hz.
  rewrite forallb_forall in Hall.
  now apply Hall, In_Zrange.
Qed.

Lemma byte_read_enumerated (v : value) : byte_read v -> In v byte_reads.
Proof.
  destruct v as [|z]; intros Hv; [now left|right].
  unfold byte_read, is_byte in Hv.
  apply in_map, In_Zrange; lia.
Qed.

Lemma is_byteb_spec (z : Z) : is_byteb z = true <-> is_byte z.
Proof. unfold is_byteb, is_byte; lia. Qed.

Lemma Forall_is_byte_dec (bs : list Z) :
  forallb is_byteb bs = true -> Forall is_byte bs.
Proof.
  intros H; apply Forall_forall; intros z Hz.
  rewrite forallb_forall in H; now apply is_byteb_spec, H.
Qed.

Lemma value_eqb_refl (v : value) : value_eqb v v = true.
Proof. destruct v; simpl; [reflexivity|apply Z.eqb_refl]. Qed.

Lemma value_eqb_eq (a b : value) : value_eqb a b = true <-> a = b.
Proof.
  destruct a, b; simpl; split; intros H;
    try reflexivity; try discriminate.
  - apply Z.eqb_eq in H; now subst.
  - injection H as ->; apply Z.eqb_refl.
Qed.

Lemma index_byte_read (bs : list Z) (i : nat) :
  Forall is_byte bs -> byte_read (index bs i).
Proof.
  intros Hbs; unfold index.
  destruct (nth_error bs i) as [z|] eqn:Hz; simpl; [|exact I].
  rewrite Forall_forall in Hbs.
  apply Hbs, (nth_error_In _ _ Hz).
Qed.

(* ------------------------------------------------------------------ *)
(** ** Prefix packing and unpacking *)

Lemma simple_form_all : forallb simple_form_ok (Zrange 0 64) = true.
Proof. vm_compute; reflexivity. Qed.

Lemma extended_form_all :
  forallb extended_form_ok (Zrange 64 (Z.to_nat 16320)) = true.
Proof. vm_compute; reflexivity. Qed.


Lemma pack_simple (f : Z) : f <= 63 -> pack f = [f].
Proof.
  intros Hf; unfold pack, le, MAX_SIMPLE_PREFIX.
  now replace (f <=? 63) with true by lia.
Qed.

Lemma unpack_simple (f : Z) (d1 : value) :
  0 <= f <= 63 -> unpack f d1 = (1%nat, number f).
Proof.
  intros Hf.
  assert (Hbit : simple_form_ok f = true).
  { apply (forallb_Zrange _ _ _ simple_form_all); lia. }
  unfold simple_form_ok in Hbit; unfold unpack.
  now rewrite Hbit.
Qed.

Lemma pack_extended (f : Z) :
  64 <= f <= 16383 ->
  exists b0 b1,
    pack f = [b0; b1] /\ is_byte b0 /\ is_byte b1 /\
    unpack b0 b1 = (2%nat, number f).
Proof.
  intros Hf.
  assert (Hok : extended_form_ok f = true).
  { apply (forallb_Zrange _ _ _ extended_form_all); lia. }
  unfold extended_form_ok in Hok.
  destruct (pack f) as [|b0 [|b1 [|? ?]]]; try discriminate.
  destruct (unpack b0 b1) as [n v] eqn:Hunpack.
  apply andb_prop in Hok as [Hb Hu].
  apply andb_prop in Hb as [Hb0 Hb1].
  apply andb_prop in Hu as [Hn Hv].
  apply is_byteb_spec in Hb0, Hb1.
  apply Nat.eqb_eq in Hn; apply value_eqb_eq in Hv; subst n v.
  exists b0, b1; auto.
Qed.

Lemma pack_length (f : Z) :
  length (pack f) = if f <=? 63 then 1%nat else 2%nat.
Proof. unfold pack, le, MAX_SIMPLE_PREFIX; now destruct (f <=? 63). Qed.

Lemma pack_bytes (f : Z) : in_format_range f -> Forall is_byte (pack f).
Proof.
  unfold in_format_range, MAX_PREFIX; intros Hf.
  destruct (Z_le_gt_dec f 63) as [Hs|Hx].
  - rewrite pack_simple by assumption.
    constructor; [unfold is_byte; lia|constructor].
  - destruct (pack_extended f) as (b0 & b1 & -> & H0 & H1 & _); [lia|].
    constructor; [assumption|].
    constructor; [assumption|constructor].
Qed.

Lemma unpack_pack (f : Z) (rest : list Z) :
  in_format_range f ->
  unpack (index (pack f ++ rest) 0) (index (pack f ++ rest) 1)
  = (length (pack f), number f).
Proof.
  unfold in_format_range, MAX_PREFIX; intros Hf.
  destruct (Z_le_gt_dec f 63) as [Hs|Hx].
  - rewrite pack_simple by assumption.
    simpl app; unfold index at 1; simpl nth_error; simpl length.
    apply unpack_simple; lia.
  - destruct (pack_extended f) as (b0 & b1 & -> & _ & _ & Hu); [lia|].
    exact Hu.
Qed.

Lemma unpack_bound_all :
  forallb (fun d0 => forallb (unpack_bound_ok d0) byte_reads) byte_reads = true.
Proof. vm_compute; reflexivity. Qed.

Lemma unpack_bound (d0 d1 : value) :
  byte_read d0 -> byte_read d1 ->
  (fst (unpack d0 d1) = 1%nat \/ fst (unpack d0 d1) = 2%nat) /\
  match snd (unpack d0 d1) with
  | number f => 0 <= f <= 16383
  | undefined => d0 = undefined
  end.
Proof.
  intros H0 H1.
  pose proof unpack_bound_all as Hall.
  rewrite forallb_forall in Hall.
  specialize (Hall d0 (byte_read_enumerated d0 H0)).
  rewrite forallb_forall in Hall.
  specialize (Hall d1 (byte_read_enumerated d1 H1)).
  unfold unpack_bound_ok in Hall.
  destruct (unpack d0 d1) as [n v]; simpl.
  apply andb_prop in Hall as [Hn Hv]; split.
  - apply orb_prop in Hn as [Hn|Hn]; apply Nat.eqb_eq in Hn; auto.
  - destruct v as [|f]; [now apply value_eqb_eq|lia].
Qed.

(* ------------------------------------------------------------------ *)
(** ** Arrays *)

Lemma Uint8Array_bytes (bs : list Z) :
  Forall is_byte bs -> Uint8Array bs = bs.
Proof.
  unfold Uint8Array, is_byte; induction 1 as [|b bs Hb _ IH]; simpl.
  - reflexivity.
  - now rewrite IH, Z.mod_small by lia.
Qed.

Lemma Uint8Array_is_bytes (bs : list Z) : Forall is_byte (Uint8Array bs).
Proof.
  unfold Uint8Array, is_byte; induction bs as [|b bs IH]; simpl.
  - constructor.
  - constructor; [|exact IH].
    pose proof (Z.mod_pos_bound b 256); lia.
Qed.

Lemma Uint8Array_app (xs ys : list Z) :
  Uint8Array (xs ++ ys) = Uint8Array xs ++ Uint8Array ys.
Proof. apply map_app. Qed.

Lemma Uint8Array_idem (bs : list Z) :
  Uint8Array (Uint8Array bs) = Uint8Array bs.
Proof. apply Uint8Array_bytes, Uint8Array_is_bytes. Qed.

Lemma Uint8Array_length (bs : list Z) :
  length (Uint8Array bs) = length bs.
Proof. apply length_map. Qed.

Lemma splice_last_length (bs : list Z) (n : nat) :
  length (snd (splice_last bs n)) = (length bs - n)%nat /\
  length (fst (splice_last bs n)) = Nat.min n (length bs).
Proof.
  unfold splice_last; simpl.
  rewrite length_firstn, length_skipn; lia.
Qed.

Lemma splice_last_app (front back : list Z) :
  splice_last (front ++ back) (length back) = (back, front).
Proof.
  unfold splice_last.
  rewrite length_app, Nat.add_sub.
  rewrite skipn_app, firstn_app, Nat.sub_diag, skipn_all, firstn_all.
  simpl; now rewrite app_nil_r.
Qed.

Lemma splice_last_split (bs : list Z) (n : nat) :
  bs = snd (splice_last bs n) ++ fst (splice_last bs n).
Proof. unfold splice_last; simpl; symmetry; apply firstn_skipn. Qed.

Lemma slice_from_app (front back : list Z) :
  slice_from (front ++ back) (length front) = back.
Proof.
  unfold slice_from.
  now rewrite skipn_app, Nat.sub_diag, skipn_all.
Qed.

Lemma index_app_l (xs ys : list Z) (i : nat) :
  (i < length xs)%nat -> index (xs ++ ys) i = index xs i.
Proof. intros Hi; unfold index; now rewrite nth_error_app1. Qed.

(** Two reads that agree on both positions of a two-element array decide
    the array. *)
Lemma two_reads_agree (sum checksum : list Z) :
  length sum = 2%nat -> (length checksum <= 2)%nat ->
  strict_eq (index sum 0) (index checksum 0) = true ->
  strict_eq (index sum 1) (index checksum 1) = true ->
  checksum = sum.
Proof.
  intros Hs Hc H0 H1.
  destruct sum as [|s0 [|s1 [|? ?]]]; try discriminate.
  destruct checksum as [|c0 [|c1 [|? ?]]]; simpl in Hc; try lia;
    try discriminate.
  apply Z.eqb_eq in H0, H1; now subst.
Qed.

(* ------------------------------------------------------------------ *)
(** ** The codec: equations *)

Section CodecFacts.

Context {E : Externals}.

Lemma includes_reserved (v : value) :
  includes RESERVED_PREFIXES v = true <-> reserved v.
Proof.
  unfold includes, RESERVED_PREFIXES, reserved.
  destruct v as [|z]; cbn [existsb value_eqb].
  - split; [discriminate|intros [H|H]; discriminate].
  - rewrite orb_false_r, orb_true_iff, !Z.eqb_eq.
    split; intros [H|H]; [left|right|left|right]; congruence.
Qed.

Lemma includes_not_reserved (v : value) :
  includes RESERVED_PREFIXES v = false <-> ~ reserved v.
Proof.
  rewrite <- includes_reserved.
  destruct (includes RESERVED_PREFIXES v); split; intros H;
    congruence.
Qed.

Lemma computeChecksum_length_le (bs : list Z) :
  (length (computeChecksum bs) <= 2)%nat.
Proof.
  unfold computeChecksum, slice_to, CHECKSUM_BYTE_LENGTH.
  rewrite length_firstn; lia.
Qed.

Lemma computeChecksum_length (bs : list Z) :
  digest_long_enough -> length (computeChecksum bs) = 2%nat.
Proof.
  intros Hd; unfold computeChecksum, slice_to.
  rewrite length_firstn.
  specialize (Hd (Uint8Array (checksumPrefix ++ bs))).
  unfold CHECKSUM_BYTE_LENGTH in *; lia.
Qed.

Lemma computeChecksum_Uint8Array (bs : list Z) :
  computeChecksum (Uint8Array bs) = computeChecksum bs.
Proof.
  unfold computeChecksum.
  now rewrite !Uint8Array_app, Uint8Array_idem.
Qed.

Lemma dataSlice_length (bs : list Z) :
  length (dataSlice bs)
  = (length bs - CHECKSUM_BYTE_LENGTH
     - fst (unpack (index bs 0) (index bs 1)))%nat.
Proof.
  unfold dataSlice, slice_from.
  rewrite length_skipn.
  now destruct (splice_last_length bs CHECKSUM_BYTE_LENGTH) as [-> _].
Qed.

(** [decode_bytes] stops at the reserved check. *)
Lemma decode_bytes_reserved (bs : list Z) :
  reserved (snd (unpack (index bs 0) (index bs 1))) ->
  decode_bytes bs
  = Throw (AssertionFailure ErrorClass
             (ReservedFormat (snd (unpack (index bs 0) (index bs 1))))).
Proof.
  intros Hr; apply includes_reserved in Hr.
  unfold decode_bytes.
  destruct (unpack (index bs 0) (index bs 1)) as [len fmt]; simpl in *.
  now rewrite Hr.
Qed.

(** [decode_bytes] stops at the length check. *)
Lemma decode_bytes_bad_length (bs : list Z) :
  ~ reserved (snd (unpack (index bs 0) (index bs 1))) ->
  length (dataSlice bs) <> DATA_LENGTH ->
  decode_bytes bs
  = Throw (AssertionFailure ErrorClass
             (InvalidDataLength (length (dataSlice bs)))).
Proof.
  intros Hr Hlen; apply includes_not_reserved in Hr.
  unfold decode_bytes, dataSlice in *.
  destruct (unpack (index bs 0) (index bs 1)) as [len fmt]; simpl in *.
  rewrite Hr; simpl.
  apply Nat.eqb_neq in Hlen; now rewrite Hlen.
Qed.

(** [decode_bytes] on an array of the accepted shape. *)
Lemma decode_bytes_accepts (prefix raw sum : list Z) (fmt : value) :
  unpack (index (prefix ++ raw ++ sum) 0) (index (prefix ++ raw ++ sum) 1)
  = (length prefix, fmt) ->
  ~ reserved fmt ->
  length raw = DATA_LENGTH ->
  length sum = CHECKSUM_BYTE_LENGTH ->
  computeChecksum (prefix ++ raw) = sum ->
  decode_bytes (prefix ++ raw ++ sum)
  = Ok {| data := Uint8Array raw; ss58Format := fmt |}.
Proof.
  intros Hu Hr Hraw Hsum Hck; apply includes_not_reserved in Hr.
  unfold decode_bytes; rewrite Hu, Hr.
  rewrite app_assoc, <- Hsum, splice_last_app, slice_from_app.
  rewrite Hraw, Nat.eqb_refl, Hck.
  unfold strict_eq; rewrite !value_eqb_refl.
  reflexivity.
Qed.

(** What an accepted array looks like. *)
Lemma decode_bytes_Ok_inv (bs : list Z) (a : Address) :
  decode_bytes bs = Ok a ->
  exists prefix raw sum,
    bs = prefix ++ raw ++ sum /\
    unpack (index bs 0) (index bs 1) = (length prefix, ss58Format a) /\
    ~ reserved (ss58Format a) /\
    length raw = DATA_LENGTH /\
    length sum = CHECKSUM_BYTE_LENGTH /\
    computeChecksum (prefix ++ raw) = sum /\
    data a = Uint8Array raw.
Proof.
  unfold decode_bytes.
  destruct (unpack (index bs 0) (index bs 1)) as [len fmt].
  destruct (includes RESERVED_PREFIXES fmt) eqn:Hr; [discriminate|].
  pose proof (splice_last_split bs CHECKSUM_BYTE_LENGTH) as Hsplit.
  pose proof (splice_last_length bs CHECKSUM_BYTE_LENGTH) as [Hl1 Hl2].
  destruct (splice_last bs CHECKSUM_BYTE_LENGTH) as [sum front].
  cbn [fst snd] in Hsplit, Hl1, Hl2.
  cbn [negb assert bind].
  destruct (length (slice_from front len) =? DATA_LENGTH)%nat eqn:Hlen;
    [|discriminate].
  cbn [assert bind].
  destruct (strict_eq (index sum 0) (index (computeChecksum front) 0))
    eqn:H0; [|discriminate].
  destruct (strict_eq (index sum 1) (index (computeChecksum front) 1))
    eqn:H1; [|discriminate].
  cbn [assert bind]; intros [= <-]; cbn [data ss58Format].
  apply Nat.eqb_eq in Hlen.
  unfold slice_from in Hlen; rewrite length_skipn in Hlen.
  unfold DATA_LENGTH, CHECKSUM_BYTE_LENGTH in *.
  assert (Hsum : length sum = 2%nat) by lia.
  exists (firstn len front), (skipn len front), sum.
  rewrite app_assoc, firstn_skipn.
  repeat split; auto.
  - f_equal; rewrite length_firstn; lia.
  - now apply includes_not_reserved.
  - rewrite length_skipn; lia.
  - apply two_reads_agree; auto using computeChecksum_length_le.
Qed.

(** [encode] on a valid address. *)
Lemma encode_valid (payload : list Z) (f : Z) :
  length payload = DATA_LENGTH -> in_format_range f ->
  ~ reserved (number f) ->
  encode {| data := payload; ss58Format := number f |}
  = Ok (base58_encode (wirePayload payload f)).
Proof.
  unfold in_format_range; intros Hlen Hf Hr.
  apply includes_not_reserved in Hr.
  unfold encode; cbn [data ss58Format ge le].
  rewrite Hlen, Hr, Nat.eqb_refl.
  now replace ((0 <=? f) && (f <=? MAX_PREFIX)) with true by lia.
Qed.

(** What a successful [encode] was given. *)
Lemma encode_Ok_inv (a : Address) (text : string) :
  encode a = Ok text ->
  exists f,
    ss58Format a = number f /\ length (data a) = DATA_LENGTH /\
    in_format_range f /\ ~ reserved (number f) /\
    text = base58_encode (wirePayload (data a) f).
Proof.
  destruct a as [payload fmt]; unfold encode; cbn [data ss58Format].
  destruct (length payload =? DATA_LENGTH)%nat eqn:Hlen; [|discriminate].
  cbn [assert bind].
  destruct fmt as [|f]; [discriminate|].
  cbn [ge le].
  destruct ((0 <=? f) && (f <=? MAX_PREFIX)) eqn:Hf; [|discriminate].
  cbn [assert bind].
  destruct (includes RESERVED_PREFIXES f) eqn:Hr; [discriminate|].
  cbn [negb assert bind]; intros [= <-].
  exists f; repeat split; auto.
  - now apply Nat.eqb_eq.
  - lia.
  - lia.
  - now apply includes_not_reserved.
Qed.

(** The payload of a valid address: prefix, data and the checksum of the
    two. *)
Lemma wirePayload_eq (payload : list Z) (f : Z) :
  wirePayload payload f
  = pack f ++ payload ++ computeChecksum (pack f ++ payload).
Proof. unfold wirePayload; now rewrite computeChecksum_Uint8Array. Qed.

(** [decode_bytes] as a chain of tests over the decoded array. *)
Lemma decode_bytes_unfold (bs : list Z) :
  let fmt := snd (unpack (index bs 0) (index bs 1)) in
  let sum := fst (splice_last bs CHECKSUM_BYTE_LENGTH) in
  let front := snd (splice_last bs CHECKSUM_BYTE_LENGTH) in
  let checksum := computeChecksum front in
  decode_bytes bs
  = if includes RESERVED_PREFIXES fmt then
      Throw (AssertionFailure ErrorClass (ReservedFormat fmt))
    else if negb (length (dataSlice bs) =? DATA_LENGTH)%nat then
      Throw (AssertionFailure ErrorClass
               (InvalidDataLength (length (dataSlice bs))))
    else if negb (strict_eq (index sum 0) (index checksum 0)) then
      Throw (AssertionFailure ErrorClass
               (ChecksumMismatch (index sum 0) (index checksum 0)))
    else if negb (strict_eq (index sum 1) (index checksum 1)) then
      Throw (AssertionFailure ErrorClass
               (ChecksumMismatch (index sum 1) (index checksum 1)))
    else
      Ok {| data := Uint8Array (dataSlice bs); ss58Format := fmt |}.
Proof.
  unfold decode_bytes, dataSlice.
  destruct (unpack (index bs 0) (index bs 1)) as [len fmt].
  destruct (splice_last bs CHECKSUM_BYTE_LENGTH) as [sum front].
  cbn [fst snd].
  destruct (includes RESERVED_PREFIXES fmt); [reflexivity|].
  cbn [negb assert bind].
  destruct (length (slice_from front len) =? DATA_LENGTH)%nat;
    [|reflexivity].
  cbn [negb assert bind].
  destruct (strict_eq (index sum 0) (index (computeChecksum front) 0));
    [|reflexivity].
  cbn [negb assert bind].
  destruct (strict_eq (index sum 1) (index (computeChecksum front) 1));
    reflexivity.
Qed.

Lemma reserved_dec (v : value) : {reserved v} + {~ reserved v}.
Proof.
  destruct (includes RESERVED_PREFIXES v) eqn:H.
  - left; now apply includes_reserved.
  - right; now apply includes_not_reserved.
Qed.

End CodecFacts.

(* ------------------------------------------------------------------ *)
(** ** The reference collaborators meet the contract *)

Lemma Blake2b_set_length (v : list Z) :
  forall i x, length (Blake2b.set v i x) = length v.
Proof.
  induction v as [|h t IH]; intros [|j] x; simpl; auto.
Qed.

Lemma Blake2b_F_length (h block : list Z) (t : Z) (last : bool) :
  length (Blake2b.F h block t last) = 8%nat.
Proof. unfold Blake2b.F; now rewrite length_map, length_seq. Qed.

Lemma Blake2b_absorb_length (fuel : nat) :
  forall h t bs,
    length h = 8%nat -> length (Blake2b.absorb fuel h t bs) = 8%nat.
Proof.
  induction fuel as [|k IH]; intros h t bs Hh; cbn [Blake2b.absorb].
  - exact Hh.
  - destruct (length bs <=? 128)%nat.
    + apply Blake2b_F_length.
    + apply IH, Blake2b_F_length.
Qed.

Lemma Blake2b_le_bytes_length (n : nat) :
  forall w, length (Blake2b.le_bytes n w) = n.
Proof. induction n as [|k IH]; intros w; simpl; auto. Qed.

Lemma concat_words_length (ws : list Z) :
  length (concat (map (Blake2b.le_bytes 8) ws)) = (8 * length ws)%nat.
Proof.
  induction ws as [|w ws IH]; [reflexivity|].
  cbn [map concat]; rewrite length_app, IH, Blake2b_le_bytes_length.
  cbn [length]; lia.
Qed.

Lemma Blake2b_hash_length (bs : list Z) :
  length (Blake2b.hash bs) = 64%nat.
Proof.
  unfold Blake2b.hash; cbv zeta.
  rewrite concat_words_length, Blake2b_absorb_length; [reflexivity|].
  now rewrite Blake2b_set_length.
Qed.

Lemma reference_digest_long_enough : @digest_long_enough reference_externals.
Proof.
  intros m; cbn [blake2b reference_externals].
  rewrite Blake2b_hash_length; unfold CHECKSUM_BYTE_LENGTH; lia.
Qed.

(** Known answers of the reference collaborators. *)
Example Blake2b_abc :
  firstn 8 (Blake2b.hash [97; 98; 99])
  = [0xba; 0x80; 0xa5; 0x3f; 0x98; 0x1c; 0x4d; 0x0d].
Proof. vm_compute; reflexivity. Qed.

Example Base58_hello :
  Base58.encode [72; 101; 108; 108; 111] = "9Ajdvzr"%string /\
  Base58.decode "9Ajdvzr" = Some [72; 101; 108; 108; 111].
Proof. vm_compute; split; reflexivity. Qed.

(* ------------------------------------------------------------------ *)
(** ** Properties of the codec *)

Section Claims.

Context {E : Externals}.

(** C2. Unpacking the prefix that packing a format in [0, 16383]
    produced gives the format back (whatever follows the prefix in the
    array), and the prefix has one byte exactly for formats up to 63 and
    two bytes exactly for formats from 64 to 16383. *)
Theorem pack_unpack_inverse (f : Z) :
  0 <= f <= 16383 ->
  (forall rest,
      unpack (index (pack f ++ rest) 0) (index (pack f ++ rest) 1)
      = (length (pack f), number f)) /\
  (length (pack f) = 1%nat <-> f <= 63) /\
  (length (pack f) = 2%nat <-> 64 <= f <= 16383).
Proof.
  intros Hf; split; [|split].
  - intros rest; now apply unpack_pack.
  - rewrite pack_length; destruct (f <=? 63) eqn:Hs; split; intros H;
      try discriminate; lia.
  - rewrite pack_length; destruct (f <=? 63) eqn:Hs; split; intros H;
      try discriminate; lia.
Qed.

(** C7. Whatever two bytes are read, the format that unpacking gives is
    at most 16383, and an address returned by [decode] never carries a
    larger format. *)
Theorem format_never_exceeds_max :
  (forall b0 b1,
      is_byte b0 -> is_byte b1 ->
      exists f, snd (unpack b0 b1) = number f /\ 0 <= f <= 16383) /\
  (forall text bs a,
      base58_decode text = Some bs -> Forall is_byte bs ->
      decode text = Ok a ->
      exists f, ss58Format a = number f /\ 0 <= f <= 16383).
Proof.
  split.
  - intros b0 b1 H0 H1.
    destruct (unpack_bound b0 b1 H0 H1) as [_ Hv].
    destruct (snd (unpack b0 b1)) as [|f]; [discriminate|].
    now exists f.
  - intros text bs a Hbs Hbytes Hdec.
    unfold decode in Hdec; rewrite Hbs in Hdec.
    apply decode_bytes_Ok_inv in Hdec
      as (prefix & raw & sum & Heq & Hu & _ & Hraw & _).
    pose proof (unpack_bound (index bs 0) (index bs 1)
                  (index_byte_read bs 0 Hbytes)
                  (index_byte_read bs 1 Hbytes)) as [Hn Hv].
    rewrite Hu in Hn, Hv; cbn [fst snd] in Hn, Hv.
    destruct (ss58Format a) as [|f]; [|now exists f].
    exfalso.
    assert (Hlen : (length bs >= 32)%nat).
    { rewrite Heq, !length_app, Hraw; unfold DATA_LENGTH; lia. }
    destruct bs as [|b bs]; [simpl in Hlen; lia|discriminate].
Qed.

(** C8. For a valid address the array that [encode] hands to the base-58
    encoder has 35 elements when the format is at most 63 (one prefix
    byte, 32 data bytes, two checksum bytes) and 36 elements when the
    format is in [64, 16383]; format 63 has a one-byte prefix and format
    64 a two-byte prefix. *)
Theorem wire_payload_length (payload : list Z) (f : Z) :
  length payload = 32%nat ->
  0 <= f <= 16383 -> f <> 46 -> f <> 47 ->
  digest_long_enough ->
  encode {| data := payload; ss58Format := number f |}
  = Ok (base58_encode (wirePayload payload f)) /\
  wirePayload payload f
  = pack f ++ payload ++ computeChecksum (pack f ++ payload) /\
  length (computeChecksum (pack f ++ payload)) = 2%nat /\
  length (wirePayload payload f)
  = (if f <=? 63 then 35%nat else 36%nat) /\
  length (pack 63) = 1%nat /\ length (pack 64) = 2%nat.
Proof.
  intros Hlen Hf H46 H47 Hd.
  split; [|split; [|split; [|split; [|split]]]].
  - apply encode_valid; auto.
    unfold reserved; intros [H|H]; congruence.
  - apply wirePayload_eq.
  - now apply computeChecksum_length.
  - rewrite wirePayload_eq, !length_app, computeChecksum_length by auto.
    rewrite pack_length, Hlen; destruct (f <=? 63); reflexivity.
  - reflexivity.
  - reflexivity.
Qed.

(** C1. For every address with exactly 32 data bytes and a format in
    [0, 16383] other than 46 and 47, [encode] gives a string and [decode]
    of that string gives the address back: the same 32 bytes and the same
    format. *)
Theorem decode_encode_roundtrip (payload : list Z) (f : Z) :
  length payload = 32%nat -> Forall is_byte payload ->
  0 <= f <= 16383 -> f <> 46 -> f <> 47 ->
  digest_long_enough ->
  base58_reads_back (wirePayload payload f) ->
  exists text,
    encode {| data := payload; ss58Format := number f |} = Ok text /\
    decode text = Ok {| data := payload; ss58Format := number f |}.
Proof.
  intros Hlen Hbytes Hf H46 H47 Hd Hback.
  assert (Hr : ~ reserved (number f)).
  { unfold reserved; intros [H|H]; congruence. }
  exists (base58_encode (wirePayload payload f)); split.
  - now apply encode_valid.
  - unfold decode; rewrite Hback, wirePayload_eq.
    rewrite <- (Uint8Array_bytes payload Hbytes) at 3.
    apply decode_bytes_accepts; auto.
    + now apply unpack_pack.
    + now apply computeChecksum_length.
Qed.

(** C3. The checksum is the first two bytes of the hash of the seven
    ASCII bytes of "SS58PRE" followed by the payload.  [encode] computes
    it over the prefix bytes and the data, and [decode] accepts an array
    only when its last two elements are the checksum of what precedes
    them, the prefix bytes and the data: on neither side do the checksum
    bytes enter the hash. *)
Theorem checksum_over_prefix_and_data
        (a : Address) (text : string) (a' : Address) (text' : string) :
  encode a = Ok text ->
  decode text' = Ok a' ->
  checksumPrefix
  = map (fun c => Z.of_N (N_of_ascii c)) (list_ascii_of_string "SS58PRE") /\
  length checksumPrefix = 7%nat /\
  (forall bytes,
      Forall is_byte bytes ->
      computeChecksum bytes
      = firstn 2 (blake2b (checksumPrefix ++ bytes))) /\
  (exists f,
      ss58Format a = number f /\
      text = base58_encode
               (pack f ++ data a ++ computeChecksum (pack f ++ data a))) /\
  (exists prefix raw sum,
      base58_decode text' = Some (prefix ++ raw ++ sum) /\
      length prefix
      = fst (unpack (index (prefix ++ raw ++ sum) 0)
                    (index (prefix ++ raw ++ sum) 1)) /\
      length raw = 32%nat /\ data a' = Uint8Array raw /\
      length sum = 2%nat /\
      sum = computeChecksum (prefix ++ raw)).
Proof.
  intros Henc Hdec.
  split; [reflexivity|split; [reflexivity|split; [|split]]].
  - intros bytes Hbytes; unfold computeChecksum, slice_to.
    rewrite Uint8Array_bytes; [reflexivity|].
    apply Forall_app; split; [|exact Hbytes].
    apply Forall_is_byte_dec; reflexivity.
  - apply encode_Ok_inv in Henc as (f & Hfmt & _ & _ & _ & ->).
    exists f; split; [exact Hfmt|].
    now rewrite wirePayload_eq.
  - unfold decode in Hdec.
    destruct (base58_decode text') as [bs|]; [|discriminate].
    apply decode_bytes_Ok_inv in Hdec
      as (prefix & raw & sum & -> & Hu & _ & Hraw & Hsum & Hck & Hdata).
    exists prefix, raw, sum; rewrite Hu; auto 10.
Qed.

(** C4, amended. When the format read from the decoded array is not
    reserved and the slice between the prefix and the last two elements
    does not have exactly 32 elements, [decode] fails with "Invalid data
    length"; in particular a decoded array of prefix length + 2 elements
    (no data) and one of prefix length + 36 elements (two data bytes too
    many) fail so. *)
Theorem decode_length_rejection (text : string) (bs : list Z) :
  base58_decode text = Some bs ->
  ~ reserved (snd (unpack (index bs 0) (index bs 1))) ->
  let prefixLen := fst (unpack (index bs 0) (index bs 1)) in
  length (dataSlice bs) = (length bs - 2 - prefixLen)%nat /\
  (length (dataSlice bs) <> 32%nat ->
   decode text
   = Throw (AssertionFailure ErrorClass
              (InvalidDataLength (length (dataSlice bs))))) /\
  (length bs = (prefixLen + 2)%nat ->
   decode text
   = Throw (AssertionFailure ErrorClass (InvalidDataLength 0))) /\
  (length bs = (prefixLen + 36)%nat ->
   decode text
   = Throw (AssertionFailure ErrorClass (InvalidDataLength 34))).
Proof.
  intros Hbs Hr prefixLen.
  pose proof (dataSlice_length bs) as Hlen.
  fold prefixLen in Hlen; unfold CHECKSUM_BYTE_LENGTH in Hlen.
  assert (Hbad : length (dataSlice bs) <> 32%nat ->
                 decode text
                 = Throw (AssertionFailure ErrorClass
                            (InvalidDataLength (length (dataSlice bs))))).
  { intros Hne; unfold decode; rewrite Hbs.
    now apply decode_bytes_bad_length. }
  split; [exact Hlen|split; [exact Hbad|split]]; intros Hn.
  - replace 0%nat with (length (dataSlice bs)) by lia.
    apply Hbad; lia.
  - replace 34%nat with (length (dataSlice bs)) by lia.
    apply Hbad; lia.
Qed.

(** C5, amended. With format 46 or 47, [encode] fails with "Reserved
    prefix" whenever the data has 32 bytes, and with the "Invalid data
    length" range error otherwise, the length being checked first;
    [decode] fails with "Reserved prefix" whenever the format read from the
    decoded array is 46 or 47, whatever the rest of the array is. *)
Theorem reserved_format_rejected (f : Z) :
  f = 46 \/ f = 47 ->
  (forall payload,
      length payload = 32%nat ->
      encode {| data := payload; ss58Format := number f |}
      = Throw (AssertionFailure ErrorClass (ReservedFormat (number f)))) /\
  (forall payload,
      length payload <> 32%nat ->
      encode {| data := payload; ss58Format := number f |}
      = Throw (AssertionFailure RangeErrorClass
                 (InvalidDataLength (length payload)))) /\
  (forall text bs,
      base58_decode text = Some bs ->
      snd (unpack (index bs 0) (index bs 1)) = number f ->
      decode text
      = Throw (AssertionFailure ErrorClass (ReservedFormat (number f)))).
Proof.
  intros Hf.
  assert (Hr : reserved (number f)).
  { unfold reserved; destruct Hf as [-> | ->]; auto. }
  split; [|split].
  - intros payload Hlen.
    apply includes_reserved in Hr.
    unfold encode; cbn [data ss58Format ge le].
    rewrite Hlen, Hr.
    replace ((0 <=? f) && (f <=? MAX_PREFIX)) with true
      by (unfold MAX_PREFIX; lia).
    reflexivity.
  - intros payload Hlen.
    unfold encode; cbn [data ss58Format].
    apply Nat.eqb_neq in Hlen; unfold DATA_LENGTH; now rewrite Hlen.
  - intros text bs Hbs Hfmt.
    unfold decode; rewrite Hbs, <- Hfmt.
    apply decode_bytes_reserved; now rewrite Hfmt.
Qed.

(** C6. [encode] succeeds only on an address with 32 data bytes and a
    format in [0, 16383] other than 46 and 47.  A wrong length, a format
    out of range and a reserved format fail with three different
    messages, and [decode] never fails with the out-of-range message. *)
Theorem encode_preconditions (a : Address) :
  ((exists text, encode a = Ok text) <->
   (length (data a) = 32%nat /\
    exists f, ss58Format a = number f /\
              0 <= f <= 16383 /\ f <> 46 /\ f <> 47)) /\
  (length (data a) <> 32%nat ->
   encode a = Throw (AssertionFailure RangeErrorClass
                       (InvalidDataLength (length (data a))))) /\
  (length (data a) = 32%nat ->
   ~ (exists f, ss58Format a = number f /\ 0 <= f <= 16383) ->
   encode a = Throw (AssertionFailure RangeErrorClass
                       (InvalidFormatRange (ss58Format a)))) /\
  (length (data a) = 32%nat ->
   reserved (ss58Format a) ->
   encode a = Throw (AssertionFailure ErrorClass
                       (ReservedFormat (ss58Format a)))) /\
  (forall n v w,
      InvalidDataLength n <> InvalidFormatRange v /\
      InvalidDataLength n <> ReservedFormat w /\
      InvalidFormatRange v <> ReservedFormat w) /\
  (forall text c v,
      decode text <> Throw (AssertionFailure c (InvalidFormatRange v))).
Proof.
  split; [|split; [|split; [|split; [|split]]]].
  - split.
    + intros [text Henc].
      apply encode_Ok_inv in Henc as (f & Hfmt & Hlen & Hf & Hr & _).
      split; [exact Hlen|].
      exists f; unfold reserved in Hr; unfold in_format_range in Hf.
      unfold MAX_PREFIX in Hf.
      repeat split; try lia; try assumption; intros ->; auto.
    + intros [Hlen (f & Hfmt & Hf & H46 & H47)].
      destruct a as [payload fmt]; cbn [data ss58Format] in *; subst fmt.
      exists (base58_encode (wirePayload payload f)).
      apply encode_valid; auto.
      unfold reserved; intros [H|H]; congruence.
  - intros Hlen; unfold encode.
    apply Nat.eqb_neq in Hlen; unfold DATA_LENGTH; now rewrite Hlen.
  - intros Hlen Hout; unfold encode.
    rewrite Hlen; cbn [Nat.eqb DATA_LENGTH assert bind].
    destruct (ss58Format a) as [|f]; [reflexivity|].
    cbn [ge le]; unfold MAX_PREFIX.
    destruct ((0 <=? f) && (f <=? 16383)) eqn:Hf; [|reflexivity].
    exfalso; apply Hout; exists f; split; [reflexivity|lia].
  - intros Hlen Hr; unfold encode.
    rewrite Hlen; cbn [Nat.eqb DATA_LENGTH assert bind].
    pose proof Hr as Hinc; apply includes_reserved in Hinc; rewrite Hinc.
    destruct Hr as [-> | ->]; reflexivity.
  - intros n v w; repeat split; discriminate.
  - intros text c v; unfold decode.
    destruct (base58_decode text) as [bs|]; [|discriminate].
    unfold decode_bytes.
    destruct (unpack (index bs 0) (index bs 1)) as [len fmt].
    destruct (includes RESERVED_PREFIXES fmt); [discriminate|].
    destruct (splice_last bs CHECKSUM_BYTE_LENGTH) as [sum front].
    cbn [negb assert bind].
    destruct (length (slice_from front len) =? DATA_LENGTH)%nat;
      [|discriminate].
    cbn [assert bind].
    destruct (strict_eq (index sum 0) (index (computeChecksum front) 0));
      [|discriminate].
    destruct (strict_eq (index sum 1) (index (computeChecksum front) 1));
      discriminate.
Qed.


(** C10. [decode] gives a result on every decoded byte array, the empty
    one and those of one or two elements included: a valid address, or
    one of the failures "Reserved prefix", "Invalid data length" and
    "Invalid checksum".  The prefix length is 1 or 2, and an array shorter
    than prefix length + 34 always fails, with "Invalid data length" when
    the format is not reserved. *)
Theorem decode_total (text : string) (bs : list Z) :
  base58_decode text = Some bs -> Forall is_byte bs ->
  let prefixLen := fst (unpack (index bs 0) (index bs 1)) in
  let fmt := snd (unpack (index bs 0) (index bs 1)) in
  ((exists a,
       decode text = Ok a /\
       length (data a) = 32%nat /\ Forall is_byte (data a) /\
       exists f, ss58Format a = number f /\
                 0 <= f <= 16383 /\ f <> 46 /\ f <> 47) \/
   (reserved fmt /\
    decode text = Throw (AssertionFailure ErrorClass (ReservedFormat fmt))) \/
   (~ reserved fmt /\ length (dataSlice bs) <> 32%nat /\
    decode text
    = Throw (AssertionFailure ErrorClass
               (InvalidDataLength (length (dataSlice bs))))) \/
   (exists got expected,
       got <> expected /\
       decode text
       = Throw (AssertionFailure ErrorClass
                  (ChecksumMismatch got expected)))) /\
  (prefixLen = 1%nat \/ prefixLen = 2%nat) /\
  ((length bs < prefixLen + 34)%nat ->
   (exists e, decode text = Throw e) /\
   (~ reserved fmt ->
    decode text
    = Throw (AssertionFailure ErrorClass
               (InvalidDataLength (length bs - 2 - prefixLen))))).
Proof.
  intros Hbs Hbytes prefixLen fmt.
  pose proof (unpack_bound (index bs 0) (index bs 1)
                (index_byte_read bs 0 Hbytes)
                (index_byte_read bs 1 Hbytes)) as [Hn Hv].
  fold prefixLen in Hn; fold fmt in Hv.
  pose proof (dataSlice_length bs) as Hlen.
  fold prefixLen in Hlen; unfold CHECKSUM_BYTE_LENGTH in Hlen.
  unfold decode; rewrite Hbs.
  split; [|split; [exact Hn|]].
  - destruct (reserved_dec fmt) as [Hr|Hr].
    { right; left; split; [exact Hr|now apply decode_bytes_reserved]. }
    destruct (Nat.eq_dec (length (dataSlice bs)) 32) as [Hd|Hd].
    2:{ right; right; left; split; [exact Hr|split; [exact Hd|]].
        now apply decode_bytes_bad_length. }
    rewrite decode_bytes_unfold; fold fmt.
    apply includes_not_reserved in Hr as Hinc; rewrite Hinc.
    rewrite Hd; cbn [Nat.eqb DATA_LENGTH negb].
    set (sum := fst (splice_last bs CHECKSUM_BYTE_LENGTH)).
    set (checksum :=
           computeChecksum (snd (splice_last bs CHECKSUM_BYTE_LENGTH))).
    destruct (strict_eq (index sum 0) (index checksum 0)) eqn:H0;
      cbn [negb].
    2:{ right; right; right.
        exists (index sum 0), (index checksum 0); split; [|reflexivity].
        intros Heq; apply value_eqb_eq in Heq.
        unfold strict_eq in H0; congruence. }
    destruct (strict_eq (index sum 1) (index checksum 1)) eqn:H1;
      cbn [negb].
    2:{ right; right; right.
        exists (index sum 1), (index checksum 1); split; [|reflexivity].
        intros Heq; apply value_eqb_eq in Heq.
        unfold strict_eq in H1; congruence. }
    left; eexists; split; [reflexivity|]; cbn [data ss58Format].
    split; [now rewrite Uint8Array_length|].
    split; [apply Uint8Array_is_bytes|].
    destruct fmt as [|f] eqn:Hfmt.
    + exfalso; unfold index in Hv; rewrite Hlen in Hd.
      destruct bs as [|b bs']; [|discriminate].
      cbn [length] in Hd; lia.
    + exists f; split; [reflexivity|split; [exact Hv|]].
      unfold reserved in Hr; split; intros ->; auto.
  - intros Hshort.
    assert (Hd : length (dataSlice bs) <> 32%nat) by lia.
    destruct (reserved_dec fmt) as [Hr|Hr].
    + split; [|contradiction].
      eexists; now apply decode_bytes_reserved.
    + rewrite <- Hlen.
      pose proof (decode_bytes_bad_length bs Hr Hd) as Hfail.
      split; [eexists; exact Hfail|intros _; exact Hfail].
Qed.

End Claims.

Lemma pack_unpack_inverse_witness :
  0 <= 2112 <= 16383 /\
  unpack (index (pack 2112 ++ alice_data) 0)
         (index (pack 2112 ++ alice_data) 1)
  = (length (pack 2112), number 2112).
Proof.
  split; [lia|].
  apply (pack_unpack_inverse 2112); lia.
Defined.

Lemma format_never_exceeds_max_witness :
  exists f, ss58Format {| data := alice_data; ss58Format := number 42 |}
            = number f /\ 0 <= f <= 16383.
Proof.
  apply (proj2 format_never_exceeds_max alice_text
               (42 :: alice_data ++ [29; 33])).
  - vm_compute; reflexivity.
  - repeat constructor; unfold is_byte; lia.
  - vm_compute; reflexivity.
Defined.

Lemma wire_payload_length_witness :
  length alice_data = 32%nat /\
  length (wirePayload alice_data 42) = 35%nat /\
  length (wirePayload alice_data 2112) = 36%nat.
Proof.
  split; [reflexivity|split].
  - apply (wire_payload_length alice_data 42);
      [reflexivity|lia|lia|lia|exact reference_digest_long_enough].
  - apply (wire_payload_length alice_data 2112);
      [reflexivity|lia|lia|lia|exact reference_digest_long_enough].
Defined.

Lemma decode_encode_roundtrip_witness :
  exists text,
    encode {| data := alice_data; ss58Format := number 42 |} = Ok text /\
    decode text = Ok {| data := alice_data; ss58Format := number 42 |}.
Proof.
  apply (decode_encode_roundtrip alice_data 42).
  - reflexivity.
  - apply Forall_is_byte_dec; reflexivity.
  - lia.
  - lia.
  - lia.
  - exact reference_digest_long_enough.
  - vm_compute; reflexivity.
Defined.

(** The round trip on the known address. *)
Example alice_roundtrip :
  encode {| data := alice_data; ss58Format := number 42 |} = Ok alice_text /\
  decode alice_text = Ok {| data := alice_data; ss58Format := number 42 |}.
Proof. vm_compute; split; reflexivity. Qed.

Lemma checksum_over_prefix_and_data_witness :
  encode {| data := alice_data; ss58Format := number 42 |} = Ok alice_text /\
  decode alice_text = Ok {| data := alice_data; ss58Format := number 42 |} /\
  exists prefix raw sum,
    base58_decode alice_text = Some (prefix ++ raw ++ sum) /\
    length prefix
    = fst (unpack (index (prefix ++ raw ++ sum) 0)
                  (index (prefix ++ raw ++ sum) 1)) /\
    length raw = 32%nat /\ alice_data = Uint8Array raw /\
    length sum = 2%nat /\
    sum = computeChecksum (prefix ++ raw).
Proof.
  assert (Henc : encode {| data := alice_data; ss58Format := number 42 |}
                 = Ok alice_text) by (vm_compute; reflexivity).
  assert (Hdec : decode alice_text
                 = Ok {| data := alice_data; ss58Format := number 42 |})
    by (vm_compute; reflexivity).
  split; [exact Henc|split; [exact Hdec|]].
  exact (proj2 (proj2 (proj2 (proj2
           (checksum_over_prefix_and_data _ _ _ _ Henc Hdec))))).
Defined.

(** A decoded array of three elements with the reserved format 46: the data
    slice is empty, yet the failure is "Reserved prefix"; and the array of
    the known address has prefix length + 34 elements and is accepted. *)
Lemma decode_length_rejection_counterexample :
  (base58_decode "GT9q" = Some [46; 0; 0] /\
   fst (unpack (index [46; 0; 0] 0) (index [46; 0; 0] 1)) = 1%nat /\
   length (dataSlice [46; 0; 0]) = 0%nat /\
   decode "GT9q"
   = Throw (AssertionFailure ErrorClass (ReservedFormat (number 46))) /\
   ~ (exists c n,
         decode "GT9q" = Throw (AssertionFailure c (InvalidDataLength n)))) /\
  (base58_decode alice_text = Some (42 :: alice_data ++ [29; 33]) /\
   fst (unpack (index (42 :: alice_data ++ [29; 33]) 0)
               (index (42 :: alice_data ++ [29; 33]) 1)) = 1%nat /\
   length (42 :: alice_data ++ [29; 33]) = (1 + 34)%nat /\
   decode alice_text
   = Ok {| data := alice_data; ss58Format := number 42 |} /\
   ~ (exists c n,
         decode alice_text
         = Throw (AssertionFailure c (InvalidDataLength n)))).
Proof.
  assert (H1 : decode "GT9q"
               = Throw (AssertionFailure ErrorClass
                          (ReservedFormat (number 46))))
    by (vm_compute; reflexivity).
  assert (H2 : decode alice_text
               = Ok {| data := alice_data; ss58Format := number 42 |})
    by (vm_compute; reflexivity).
  split.
  - split; [vm_compute; reflexivity|].
    split; [vm_compute; reflexivity|].
    split; [vm_compute; reflexivity|].
    split; [exact H1|].
    intros (c & n & H); rewrite H1 in H; discriminate.
  - split; [vm_compute; reflexivity|].
    split; [vm_compute; reflexivity|].
    split; [vm_compute; reflexivity|].
    split; [exact H2|].
    intros (c & n & H); rewrite H2 in H; discriminate.
Qed.

Lemma decode_length_rejection_witness :
  base58_decode "111" = Some [0; 0; 0] /\
  decode "111"
  = Throw (AssertionFailure ErrorClass (InvalidDataLength 0)) /\
  base58_decode "1111111111111111111111111111111111111"
  = Some (repeat 0 37) /\
  decode "1111111111111111111111111111111111111"
  = Throw (AssertionFailure ErrorClass (InvalidDataLength 34)).
Proof.
  assert (Hfree : forall n,
             ~ reserved (snd (unpack (index (repeat 0 (S n)) 0)
                                     (index (repeat 0 (S n)) 1)))).
  { intros n [H|H]; cbn [repeat index nth_error] in H;
      vm_compute in H; discriminate. }
  assert (H3 : base58_decode "111" = Some (repeat 0 3))
    by (vm_compute; reflexivity).
  assert (H37 : base58_decode "1111111111111111111111111111111111111"
                = Some (repeat 0 37)) by (vm_compute; reflexivity).
  split; [exact H3|split; [|split; [exact H37|]]].
  - apply (proj1 (proj2 (proj2
             (decode_length_rejection "111" (repeat 0 3) H3 (Hfree 2%nat))))).
    vm_compute; reflexivity.
  - apply (proj2 (proj2 (proj2
             (decode_length_rejection _ (repeat 0 37) H37 (Hfree 36%nat))))).
    vm_compute; reflexivity.
Defined.

(** Format 46 with data of the wrong length: the length is reported, not
    the reserved format. *)
Lemma reserved_format_rejected_counterexample :
  encode {| data := []; ss58Format := number 46 |}
  = Throw (AssertionFailure RangeErrorClass (InvalidDataLength 0)) /\
  ~ (exists c v,
        encode {| data := []; ss58Format := number 46 |}
        = Throw (AssertionFailure c (ReservedFormat v))).
Proof.
  assert (H : encode {| data := []; ss58Format := number 46 |}
              = Throw (AssertionFailure RangeErrorClass (InvalidDataLength 0)))
    by reflexivity.
  split; [exact H|].
  intros (c & v & H'); rewrite H in H'; discriminate.
Qed.

Lemma reserved_format_rejected_witness :
  base58_decode reserved_text
  = Some ([46] ++ zero_data ++ computeChecksum ([46] ++ zero_data)) /\
  decode reserved_text
  = Throw (AssertionFailure ErrorClass (ReservedFormat (number 46))) /\
  encode {| data := zero_data; ss58Format := number 46 |}
  = Throw (AssertionFailure ErrorClass (ReservedFormat (number 46))) /\
  encode {| data := [1]; ss58Format := number 46 |}
  = Throw (AssertionFailure RangeErrorClass (InvalidDataLength 1)).
Proof.
  assert (Hbs : base58_decode reserved_text
                = Some ([46] ++ zero_data
                        ++ computeChecksum ([46] ++ zero_data)))
    by (vm_compute; reflexivity).
  pose proof (reserved_format_rejected 46 (or_introl eq_refl))
    as (Henc & Hlen & Hdec).
  split; [exact Hbs|split; [|split]].
  - apply (Hdec _ _ Hbs); reflexivity.
  - apply Henc; reflexivity.
  - apply (Hlen [1]); discriminate.
Defined.

Lemma encode_preconditions_witness :
  encode {| data := [1]; ss58Format := number 16384 |}
  = Throw (AssertionFailure RangeErrorClass (InvalidDataLength 1)) /\
  encode {| data := zero_data; ss58Format := number 16384 |}
  = Throw (AssertionFailure RangeErrorClass
             (InvalidFormatRange (number 16384))) /\
  encode {| data := zero_data; ss58Format := number 47 |}
  = Throw (AssertionFailure ErrorClass (ReservedFormat (number 47))).
Proof.
  split; [|split].
  - apply (proj1 (proj2 (encode_preconditions
                           {| data := [1]; ss58Format := number 16384 |}))).
    discriminate.
  - apply (proj1 (proj2 (proj2 (encode_preconditions
             {| data := zero_data; ss58Format := number 16384 |})))).
    + reflexivity.
    + intros (f & Hf & Hrange); injection Hf as <-; lia.
  - apply (proj1 (proj2 (proj2 (proj2 (encode_preconditions
             {| data := zero_data; ss58Format := number 47 |}))))).
    + reflexivity.
    + now right.
Defined.


Lemma decode_total_witness :
  base58_decode EmptyString = Some [] /\
  decode EmptyString
  = Throw (AssertionFailure ErrorClass (InvalidDataLength 0)) /\
  base58_decode "27" = Some [64] /\
  decode "27"
  = Throw (AssertionFailure ErrorClass (InvalidDataLength 0)) /\
  base58_decode "5sW" = Some [64; 1] /\
  decode "5sW"
  = Throw (AssertionFailure ErrorClass (InvalidDataLength 0)).
Proof.
  assert (Hrun : forall text bs,
             base58_decode text = Some bs ->
             forallb is_byteb bs = true ->
             (length bs
              <? fst (unpack (index bs 0) (index bs 1)) + 34)%nat = true ->
             includes RESERVED_PREFIXES
                      (snd (unpack (index bs 0) (index bs 1))) = false ->
             decode text
             = Throw (AssertionFailure ErrorClass
                        (InvalidDataLength
                           (length bs - 2
                            - fst (unpack (index bs 0) (index bs 1)))))).
  { intros text bs Hbs Hbytes Hshort Hfree.
    apply (decode_total text bs Hbs (Forall_is_byte_dec bs Hbytes)).
    - now apply Nat.ltb_lt.
    - now apply includes_not_reserved. }
  assert (H0 : base58_decode EmptyString = Some []) by (vm_compute; reflexivity).
  assert (H1 : base58_decode "27" = Some [64]) by (vm_compute; reflexivity).
  assert (H2 : base58_decode "5sW" = Some [64; 1])
    by (vm_compute; reflexivity).
  split; [exact H0|split; [|split; [exact H1|split; [|split; [exact H2|]]]]].
  - apply (Hrun EmptyString [] H0); reflexivity.
  - apply (Hrun "27"%string [64] H1); reflexivity.
  - apply (Hrun "5sW"%string [64; 1] H2); reflexivity.
Defined.

(* ------------------------------------------------------------------ *)
(** ** Further properties of the codec *)

Lemma first_byte_form_all :
  forallb (fun b0 => forallb (first_byte_form_ok b0) byte_reads)
          (Zrange 0 256) = true.
Proof. vm_compute; reflexivity. Qed.

Lemma first_byte_written_all :
  forallb first_byte_written_ok (Zrange 0 (Z.to_nat 16384)) = true.
Proof. vm_compute; reflexivity. Qed.

Lemma read_eqb_eq (r1 r2 : nat * value) : read_eqb r1 r2 = true -> r1 = r2.
Proof.
  destruct r1 as [n1 v1], r2 as [n2 v2]; unfold read_eqb; cbn [fst snd].
  intros H; apply andb_prop in H as [Hn Hv].
  apply Nat.eqb_eq in Hn; apply value_eqb_eq in Hv; now subst.
Qed.

Section CodecMore.

Context {E : Externals}.

(** The format of an accepted byte array is a number within range. *)
Lemma decode_bytes_format_number (bs : list Z) (a : Address) :
  Forall is_byte bs -> decode_bytes bs = Ok a ->
  exists f, ss58Format a = number f /\ in_format_range f.
Proof.
  intros Hbytes Hdec.
  apply decode_bytes_Ok_inv in Hdec
    as (prefix & raw & sum & Heq & Hu & _ & Hraw & _).
  pose proof (unpack_bound (index bs 0) (index bs 1)
                (index_byte_read bs 0 Hbytes)
                (index_byte_read bs 1 Hbytes)) as [_ Hv].
  rewrite Hu in Hv; cbn [snd] in Hv.
  destruct (ss58Format a) as [|f]; [|now exists f].
  exfalso.
  assert (Hlen : (length bs >= 32)%nat).
  { rewrite Heq, !length_app, Hraw; unfold DATA_LENGTH; lia. }
  destruct bs as [|b bs]; [simpl in Hlen; lia|discriminate].
Qed.

(** The array that [encode] writes for a valid address is accepted and
    gives the address back. *)
Lemma decode_bytes_wirePayload (payload : list Z) (f : Z) :
  length payload = DATA_LENGTH -> Forall is_byte payload ->
  in_format_range f -> ~ reserved (number f) ->
  digest_long_enough ->
  decode_bytes (wirePayload payload f)
  = Ok {| data := payload; ss58Format := number f |}.
Proof.
  intros Hlen Hbytes Hf Hr Hd.
  rewrite wirePayload_eq.
  rewrite <- (Uint8Array_bytes payload Hbytes) at 3.
  apply decode_bytes_accepts; auto.
  - now apply unpack_pack.
  - now apply computeChecksum_length.
Qed.

(** The array that [encode] writes determines the address. *)
Lemma wirePayload_inj (d1 d2 : list Z) (f1 f2 : Z) :
  length d1 = DATA_LENGTH -> length d2 = DATA_LENGTH ->
  in_format_range f1 -> in_format_range f2 ->
  wirePayload d1 f1 = wirePayload d2 f2 -> d1 = d2 /\ f1 = f2.
Proof.
  intros H1 H2 Hf1 Hf2 Heq; rewrite !wirePayload_eq in Heq.
  pose proof (unpack_pack f1 (d1 ++ computeChecksum (pack f1 ++ d1)) Hf1)
    as Hu1.
  pose proof (unpack_pack f2 (d2 ++ computeChecksum (pack f2 ++ d2)) Hf2)
    as Hu2.
  rewrite Heq, Hu2 in Hu1.
  injection Hu1 as _ Hf; subst f2.
  apply app_inv_head in Heq.
  split; [|reflexivity].
  apply (f_equal (firstn DATA_LENGTH)) in Heq.
  rewrite <- H1 in Heq at 1; rewrite <- H2 in Heq at 1.
  now rewrite !firstn_app, !Nat.sub_diag, !firstn_all, !firstn_O,
    !app_nil_r in Heq.
Qed.

(** X1. [decode] returns an address for a text exactly when the decoded
    array has a format that is not reserved, has precisely the prefix, 32
    further elements and two more, and those last two are the checksum of
    all that precedes them; the address is then the format and the 32
    elements after the prefix. *)
Theorem decode_accepts_iff (text : string) (a : Address) :
  decode text = Ok a <->
  exists bs,
    base58_decode text = Some bs /\
    let prefixLen := fst (unpack (index bs 0) (index bs 1)) in
    let fmt := snd (unpack (index bs 0) (index bs 1)) in
    ~ reserved fmt /\
    length bs = (prefixLen + 34)%nat /\
    skipn (prefixLen + 32) bs
    = computeChecksum (firstn (prefixLen + 32) bs) /\
    a = {| data := Uint8Array (firstn 32 (skipn prefixLen bs));
           ss58Format := fmt |}.
Proof.
  unfold decode; split.
  - destruct (base58_decode text) as [bs|]; [|discriminate].
    intros Hdec; exists bs; split; [reflexivity|].
    apply decode_bytes_Ok_inv in Hdec
      as (prefix & raw & sum & Heq & Hu & Hr & Hraw & Hsum & Hck & Hdata).
    rewrite Hu; cbn [fst snd]; unfold DATA_LENGTH, CHECKSUM_BYTE_LENGTH in *.
    assert (Hfront : (length prefix + 32 = length (prefix ++ raw))%nat).
    { rewrite length_app; lia. }
    subst bs; split; [exact Hr|split; [|split]].
    + rewrite !length_app; lia.
    + rewrite app_assoc, Hfront.
      now rewrite skipn_app, firstn_app, Nat.sub_diag, skipn_all, firstn_all,
        firstn_O, app_nil_r.
    + destruct a as [d fmt]; cbn [data ss58Format] in *; subst d.
      do 2 f_equal.
      rewrite skipn_app, Nat.sub_diag, skipn_all; cbn [app skipn].
      rewrite <- Hraw at 1.
      now rewrite firstn_app, Nat.sub_diag, firstn_all, firstn_O, app_nil_r.
  - intros (bs & -> & Hr & Hlen & Hck & ->).
    destruct (unpack (index bs 0) (index bs 1)) as [len fmt] eqn:Hu.
    cbn [fst snd] in *.
    set (prefix := firstn len bs).
    set (raw := firstn 32 (skipn len bs)).
    set (sum := skipn (len + 32) bs).
    assert (Hsplit : bs = prefix ++ raw ++ sum).
    { unfold prefix, raw, sum.
      rewrite <- (firstn_skipn len bs) at 1; f_equal.
      rewrite <- (firstn_skipn 32 (skipn len bs)) at 1; f_equal.
      now rewrite skipn_skipn, Nat.add_comm. }
    assert (Hprefix : length prefix = len).
    { unfold prefix; rewrite length_firstn; lia. }
    assert (Hraw : length raw = 32%nat).
    { unfold raw; rewrite length_firstn, length_skipn; lia. }
    assert (Hfront : firstn (len + 32) bs = prefix ++ raw).
    { rewrite Hsplit at 1.
      replace (len + 32)%nat with (length (prefix ++ raw))
        by (rewrite length_app; lia).
      now rewrite app_assoc, firstn_app, Nat.sub_diag, firstn_all, firstn_O,
        app_nil_r. }
    rewrite Hsplit at 1.
    apply decode_bytes_accepts; auto.
    + rewrite <- Hsplit, Hu, Hprefix; reflexivity.
    + unfold sum; rewrite length_skipn; unfold CHECKSUM_BYTE_LENGTH; lia.
    + rewrite <- Hfront; symmetry; exact Hck.
Qed.

(** X2. When the format is not reserved and the length is right but the
    last two elements are not the checksum of what precedes them, [decode]
    fails with "Invalid checksum" and reports the first position that
    differs: position 0 when it differs, position 1 otherwise. *)
Theorem decode_checksum_mismatch (text : string) (bs : list Z) :
  base58_decode text = Some bs ->
  ~ reserved (snd (unpack (index bs 0) (index bs 1))) ->
  length bs = (fst (unpack (index bs 0) (index bs 1)) + 34)%nat ->
  let sum := skipn (length bs - 2) bs in
  let checksum := computeChecksum (firstn (length bs - 2) bs) in
  sum <> checksum ->
  (index sum 0 <> index checksum 0 /\
   decode text
   = Throw (AssertionFailure ErrorClass
              (ChecksumMismatch (index sum 0) (index checksum 0)))) \/
  (index sum 0 = index checksum 0 /\
   index sum 1 <> index checksum 1 /\
   decode text
   = Throw (AssertionFailure ErrorClass
              (ChecksumMismatch (index sum 1) (index checksum 1)))).
Proof.
  intros Hbs Hr Hlen sum checksum Hne.
  unfold decode; rewrite Hbs, decode_bytes_unfold.
  apply includes_not_reserved in Hr; rewrite Hr.
  rewrite dataSlice_length; unfold CHECKSUM_BYTE_LENGTH, DATA_LENGTH.
  replace (length bs - 2 - fst (unpack (index bs 0) (index bs 1)))%nat
    with 32%nat by lia.
  cbn [Nat.eqb negb splice_last fst snd].
  fold sum; fold checksum.
  destruct (strict_eq (index sum 0) (index checksum 0)) eqn:H0; cbn [negb].
  - right; apply value_eqb_eq in H0.
    destruct (strict_eq (index sum 1) (index checksum 1)) eqn:H1;
      cbn [negb].
    + exfalso; apply Hne; symmetry.
      apply two_reads_agree.
      * unfold sum; rewrite length_skipn; lia.
      * apply computeChecksum_length_le.
      * now apply value_eqb_eq.
      * exact H1.
    + split; [exact H0|split; [|reflexivity]].
      intros Heq; apply value_eqb_eq in Heq.
      unfold strict_eq in H1; congruence.
  - left; split; [|reflexivity].
    intros Heq; apply value_eqb_eq in Heq.
    unfold strict_eq in H0; congruence.
Qed.

(** X3. An address that [decode] returned from a byte array is accepted by
    [encode], and the array that [encode] writes for it is the decoded
    array again exactly when the prefix of the decoded array is the one
    that [encode] writes for the format. *)
Theorem encode_after_decode (text : string) (bs : list Z) (a : Address) :
  base58_decode text = Some bs -> Forall is_byte bs ->
  decode text = Ok a ->
  exists f,
    ss58Format a = number f /\
    encode a = Ok (base58_encode (wirePayload (data a) f)) /\
    (wirePayload (data a) f = bs <->
     pack f = firstn (fst (unpack (index bs 0) (index bs 1))) bs).
Proof.
  intros Hbs Hbytes Hdec.
  unfold decode in Hdec; rewrite Hbs in Hdec.
  destruct (decode_bytes_format_number bs a Hbytes Hdec) as (f & Hfmt & Hf).
  apply decode_bytes_Ok_inv in Hdec
    as (prefix & raw & sum & Heq & Hu & Hr & Hraw & Hsum & Hck & Hdata).
  assert (Hrawbytes : Forall is_byte raw).
  { rewrite Heq in Hbytes.
    apply Forall_app in Hbytes as [_ Hrest].
    now apply Forall_app in Hrest as [Hrest _]. }
  rewrite Uint8Array_bytes in Hdata by assumption.
  destruct a as [d fmt]; cbn [data ss58Format] in *; subst d fmt.
  exists f; split; [reflexivity|split].
  - now apply encode_valid.
  - rewrite Hu; cbn [fst].
    assert (Hfirst : firstn (length prefix) bs = prefix).
    { now rewrite Heq, firstn_app, Nat.sub_diag, firstn_all, firstn_O,
        app_nil_r. }
    rewrite Hfirst, wirePayload_eq; split.
    + intros Hw.
      pose proof (unpack_pack f (raw ++ computeChecksum (pack f ++ raw)) Hf)
        as Hup.
      rewrite Hw, Hu in Hup; injection Hup as Hlen.
      rewrite Heq in Hw.
      apply (f_equal (firstn (length prefix))) in Hw.
      rewrite Hlen in Hw at 1.
      now rewrite !firstn_app, !Nat.sub_diag, !firstn_all, !firstn_O,
        !app_nil_r in Hw.
    + intros ->; now rewrite Hck.
Qed.

(** X4. Two addresses for which [encode] gives the same text are the same
    address, as soon as the base-58 decoder reads back what the encoder
    wrote for each. *)
Theorem encode_injective (d1 d2 : list Z) (f1 f2 : Z) (text : string) :
  encode {| data := d1; ss58Format := number f1 |} = Ok text ->
  encode {| data := d2; ss58Format := number f2 |} = Ok text ->
  base58_reads_back (wirePayload d1 f1) ->
  base58_reads_back (wirePayload d2 f2) ->
  d1 = d2 /\ f1 = f2.
Proof.
  intros He1 He2 Hb1 Hb2.
  apply encode_Ok_inv in He1 as (g1 & [= <-] & Hl1 & Hr1 & _ & Ht1).
  apply encode_Ok_inv in He2 as (g2 & [= <-] & Hl2 & Hr2 & _ & Ht2).
  cbn [data] in *.
  unfold base58_reads_back in Hb1, Hb2.
  rewrite <- Ht1 in Hb1; rewrite <- Ht2, Hb1 in Hb2.
  injection Hb2 as Hw.
  now apply wirePayload_inj.
Qed.

(** X5. Which form a first byte selects when the array is read: a byte in
    [0, 63] or [128, 191] is read in simple form as the format itself,
    every other byte in extended form; and in extended form bit 7 of the
    first byte is dropped, a first byte of 192 or more being read like that
    byte less 128. *)
Theorem unpack_form_by_first_byte (b0 : Z) (d1 : value) :
  is_byte b0 -> byte_read d1 ->
  (b0 <= 63 \/ 128 <= b0 <= 191 -> unpack b0 d1 = (1%nat, number b0)) /\
  (64 <= b0 <= 127 \/ 192 <= b0 -> fst (unpack b0 d1) = 2%nat) /\
  (192 <= b0 -> unpack b0 d1 = unpack (b0 - 128) d1).
Proof.
  intros Hb0 Hd1; unfold is_byte in Hb0.
  pose proof (forallb_Zrange _ _ _ first_byte_form_all b0) as Hall.
  cbv beta in Hall; specialize (Hall ltac:(lia)).
  rewrite forallb_forall in Hall.
  specialize (Hall d1 (byte_read_enumerated d1 Hd1)).
  unfold first_byte_form_ok in Hall.
  destruct ((b0 <=? 63) || ((128 <=? b0) && (b0 <=? 191))) eqn:Hsimple.
  - apply read_eqb_eq in Hall.
    split; [intros _; exact Hall|split; intros H; lia].
  - apply andb_prop in Hall as [Hn Hhigh]; apply Nat.eqb_eq in Hn.
    split; [intros H; lia|split; [intros _; exact Hn|]].
    intros H192.
    replace (192 <=? b0) with true in Hhigh by lia.
    now apply read_eqb_eq.
Qed.

(** X6. The first byte that [encode] writes for a format in [0, 16383] is
    below 128: the format itself up to 63, and a byte in [64, 127] for the
    larger formats. *)
Theorem pack_first_byte (f : Z) :
  0 <= f <= 16383 ->
  exists b0 rest,
    pack f = b0 :: rest /\
    (f <= 63 -> b0 = f) /\
    (64 <= f -> 64 <= b0 <= 127).
Proof.
  intros Hf.
  pose proof (forallb_Zrange _ _ _ first_byte_written_all f ltac:(lia))
    as Hok.
  unfold first_byte_written_ok in Hok.
  destruct (pack f) as [|b0 rest]; [discriminate|].
  exists b0, rest; split; [reflexivity|].
  destruct (f <=? 63) eqn:Hs; split; intros H; lia.
Qed.

End CodecMore.

(* ------------------------------------------------------------------ *)
(** ** Properties of the address helpers *)

Lemma chainflipAsset_inv (chain asset : string) (x : ChainflipAsset) :
  chainflipAsset chain asset = Some x ->
  In (chain, x)
     [("Ethereum"%string, Eth); ("Ethereum"%string, Flip);
      ("Ethereum"%string, Usdc); ("Polkadot"%string, Dot);
      ("Bitcoin"%string, Btc); ("Arbitrum"%string, ArbEth);
      ("Arbitrum"%string, ArbUsdc); ("Ethereum"%string, Usdt);
      ("Solana"%string, Sol); ("Solana"%string, SolUsdc)].
Proof.
  unfold chainflipAsset.
  repeat match goal with
         | |- context [if (?a =? ?b)%string && _ then _ else _] =>
             destruct (String.eqb_spec a b) as [->|?]; cbn [andb]
         | |- context [if (?a =? ?b)%string then _ else _] =>
             destruct (String.eqb_spec a b) as [->|?]
         end;
    intros [= <-]; cbn [In]; auto 12.
Qed.

Section CallerFacts.

Context {E : Externals} {X : AddressExternals}.

Lemma toEncodedAddress_shortChain
      (address : string) (asset : ChainflipAsset) (e : EncodedAddress) :
  toEncodedAddress address asset = Returned e ->
  shortChain e = assetToShortChain asset.
Proof.
  unfold toEncodedAddress, fromHex.
  destruct asset;
    repeat match goal with
           | |- context [if ?c then _ else _] => destruct c
           | |- context [match ?c with _ => _ end] => destruct c
           end;
    intros [= <-]; reflexivity.
Qed.

(** X7. The text that [ss58.encode] gives for a valid address, handed to the
    helpers with the asset [Dot], comes back as the 32 account bytes under
    the key "dot", whatever the format of the address, through
    [toEncodedAddress], [toForeignChainAddress] and the [refund_address] of
    [encodeRefundParameters] alike, provided the text does not start with
    "0x". *)
Theorem dot_address_of_encoded
        (payload : list Z) (f : Z) (net : ChainflipNetwork) :
  length payload = 32%nat -> Forall is_byte payload ->
  0 <= f <= 16383 -> f <> 46 -> f <> 47 ->
  digest_long_enough ->
  base58_reads_back (wirePayload payload f) ->
  prefix "0x" (base58_encode (wirePayload payload f)) = false ->
  exists text,
    encode {| data := payload; ss58Format := number f |} = Ok text /\
    toEncodedAddress text Dot
    = Returned {| shortChain := "dot"; encoded := Bytes payload |} /\
    toForeignChainAddress text Dot net
    = Returned (EncodedForm
                  {| shortChain := "dot"; encoded := Bytes payload |}) /\
    forall retry price,
      encodeRefundParameters
        {| retryDuration := retry; refundAddress := text;
           minPrice := price |} Dot net
      = Returned
          {| retry_duration := retry; min_price := price;
             refund_address :=
               EncodedForm
                 {| shortChain := "dot"; encoded := Bytes payload |} |}.
Proof.
  intros Hlen Hbytes Hf H46 H47 Hd Hback Hprefix.
  assert (Hr : ~ reserved (number f)).
  { unfold reserved; intros [H|H]; congruence. }
  assert (Hdec : decode (base58_encode (wirePayload payload f))
                 = Ok {| data := payload; ss58Format := number f |}).
  { unfold decode; rewrite Hback.
    now apply decode_bytes_wirePayload. }
  assert (Henc : toEncodedAddress (base58_encode (wirePayload payload f)) Dot
                 = Returned {| shortChain := "dot";
                               encoded := Bytes payload |}).
  { unfold toEncodedAddress; now rewrite Hprefix, Hdec. }
  assert (Hfor : toForeignChainAddress
                   (base58_encode (wirePayload payload f)) Dot net
                 = Returned (EncodedForm
                               {| shortChain := "dot";
                                  encoded := Bytes payload |})).
  { unfold toForeignChainAddress; now rewrite Henc. }
  exists (base58_encode (wirePayload payload f)).
  split; [now apply encode_valid|split; [exact Henc|split; [exact Hfor|]]].
  intros retry price.
  unfold encodeRefundParameters; cbn [refundAddress retryDuration minPrice].
  now rewrite Hfor.
Qed.

(** X8. With the asset [Dot], two SS58 texts that decode to the same 32
    account bytes give the same encoded address: the bytes under the key
    "dot".  The format that [ss58.decode] returned is not looked at. *)
Theorem dot_address_ignores_format
        (text1 text2 : string) (a1 a2 : Address) (net : ChainflipNetwork) :
  prefix "0x" text1 = false -> prefix "0x" text2 = false ->
  decode text1 = Ok a1 -> decode text2 = Ok a2 ->
  data a1 = data a2 ->
  toForeignChainAddress text1 Dot net
  = Returned (EncodedForm
                {| shortChain := "dot"; encoded := Bytes (data a1) |}) /\
  toForeignChainAddress text2 Dot net
  = toForeignChainAddress text1 Dot net /\
  length (data a1) = 32%nat.
Proof.
  intros Hp1 Hp2 Hd1 Hd2 Hdata.
  unfold toForeignChainAddress, toEncodedAddress.
  rewrite Hp1, Hp2, Hd1, Hd2, Hdata.
  split; [reflexivity|split; [reflexivity|]].
  unfold decode in Hd2.
  destruct (base58_decode text2) as [bs|]; [|discriminate].
  apply decode_bytes_Ok_inv in Hd2
    as (prefix' & raw & sum & _ & _ & _ & Hraw & _ & _ & ->).
  now rewrite Uint8Array_length.
Qed.

(** X9. The key under which [toEncodedAddress] files an address depends on
    the chain of the asset and on nothing else: for two assets that the
    schema [chainflipAsset] accepts, the keys are equal exactly when the
    chains are. *)
Theorem short_chain_by_chain
        (chain1 asset1 chain2 asset2 : string) (x y : ChainflipAsset)
        (address1 address2 : string) (e1 e2 : EncodedAddress) :
  chainflipAsset chain1 asset1 = Some x ->
  chainflipAsset chain2 asset2 = Some y ->
  toEncodedAddress address1 x = Returned e1 ->
  toEncodedAddress address2 y = Returned e2 ->
  (shortChain e1 = shortChain e2 <-> chain1 = chain2).
Proof.
  intros Hx Hy He1 He2.
  apply toEncodedAddress_shortChain in He1, He2; rewrite He1, He2.
  apply chainflipAsset_inv in Hx, Hy.
  cbn [In] in Hx, Hy.
  repeat match goal with
         | H : _ \/ _ |- _ => destruct H as [H|H]
         | H : False |- _ => destruct H
         end;
    injection Hx as <- <-; injection Hy as <- <-;
    split; intros H; try reflexivity; discriminate H.
Qed.

End CallerFacts.

Lemma decode_accepts_iff_witness :
  exists bs,
    base58_decode alice_text = Some bs /\
    let prefixLen := fst (unpack (index bs 0) (index bs 1)) in
    let fmt := snd (unpack (index bs 0) (index bs 1)) in
    ~ reserved fmt /\
    length bs = (prefixLen + 34)%nat /\
    skipn (prefixLen + 32) bs
    = computeChecksum (firstn (prefixLen + 32) bs) /\
    {| data := alice_data; ss58Format := number 42 |}
    = {| data := Uint8Array (firstn 32 (skipn prefixLen bs));
         ss58Format := fmt |}.
Proof.
  apply (proj1 (decode_accepts_iff alice_text _)).
  vm_compute; reflexivity.
Defined.

Lemma decode_checksum_mismatch_witness :
  base58_decode alice_corrupt_text = Some (42 :: alice_data ++ [29; 34]) /\
  decode alice_corrupt_text
  = Throw (AssertionFailure ErrorClass
             (ChecksumMismatch (number 34) (number 33))).
Proof.
  assert (Hbs : base58_decode alice_corrupt_text
                = Some (42 :: alice_data ++ [29; 34]))
    by (vm_compute; reflexivity).
  split; [exact Hbs|].
  destruct (decode_checksum_mismatch alice_corrupt_text _ Hbs)
    as [[Hne _]|(_ & _ & Hdec)].
  - intros [H|H]; vm_compute in H; discriminate.
  - reflexivity.
  - intros H; vm_compute in H; discriminate.
  - exfalso; apply Hne; vm_compute; reflexivity.
  - rewrite Hdec; vm_compute; reflexivity.
Defined.

Lemma encode_after_decode_witness :
  exists f,
    number 42 = number f /\
    encode {| data := alice_data; ss58Format := number 42 |}
    = Ok (base58_encode (wirePayload alice_data f)) /\
    (wirePayload alice_data f = 42 :: alice_data ++ [29; 33] <->
     pack f
     = firstn (fst (unpack (index (42 :: alice_data ++ [29; 33]) 0)
                           (index (42 :: alice_data ++ [29; 33]) 1)))
              (42 :: alice_data ++ [29; 33])).
Proof.
  apply (encode_after_decode alice_text (42 :: alice_data ++ [29; 33])
           {| data := alice_data; ss58Format := number 42 |}).
  - vm_compute; reflexivity.
  - apply Forall_is_byte_dec; reflexivity.
  - vm_compute; reflexivity.
Defined.

Lemma encode_injective_witness :
  encode {| data := alice_data; ss58Format := number 42 |} = Ok alice_text /\
  (alice_data = alice_data /\ 42 = 42).
Proof.
  assert (Henc : encode {| data := alice_data; ss58Format := number 42 |}
                 = Ok alice_text) by (vm_compute; reflexivity).
  assert (Hback : base58_reads_back (wirePayload alice_data 42))
    by (vm_compute; reflexivity).
  split; [exact Henc|].
  exact (encode_injective alice_data alice_data 42 42 alice_text
           Henc Henc Hback Hback).
Defined.

Lemma unpack_form_by_first_byte_witness :
  unpack (number 192) (number 0) = unpack (number (192 - 128)) (number 0) /\
  unpack (number 128) undefined = (1%nat, number 128).
Proof.
  assert (Hb : forall z, 0 <= z <= 255 -> is_byte z) by (intros z H; exact H).
  split.
  - apply (unpack_form_by_first_byte 192 (number 0));
      [apply Hb; lia|apply Hb; lia|lia].
  - apply (unpack_form_by_first_byte 128 undefined);
      [apply Hb; lia|exact I|lia].
Defined.

Lemma pack_first_byte_witness :
  exists b0 rest,
    pack 2112 = b0 :: rest /\
    (2112 <= 63 -> b0 = 2112) /\
    (64 <= 2112 -> 64 <= b0 <= 127).
Proof. apply (pack_first_byte 2112); lia. Defined.

Lemma dot_address_of_encoded_witness :
  exists text,
    encode {| data := alice_data; ss58Format := number 42 |} = Ok text /\
    toEncodedAddress text Dot
    = Returned {| shortChain := "dot"; encoded := Bytes alice_data |} /\
    toForeignChainAddress text Dot mainnet
    = Returned (EncodedForm
                  {| shortChain := "dot"; encoded := Bytes alice_data |}) /\
    forall retry price,
      encodeRefundParameters
        {| retryDuration := retry; refundAddress := text;
           minPrice := price |} Dot mainnet
      = Returned
          {| retry_duration := retry; min_price := price;
             refund_address :=
               EncodedForm
                 {| shortChain := "dot"; encoded := Bytes alice_data |} |}.
Proof.
  apply (dot_address_of_encoded alice_data 42 mainnet).
  - reflexivity.
  - apply Forall_is_byte_dec; reflexivity.
  - lia.
  - lia.
  - lia.
  - exact reference_digest_long_enough.
  - vm_compute; reflexivity.
  - vm_compute; reflexivity.
Defined.

Lemma dot_address_ignores_format_witness :
  decode alice_text = Ok {| data := alice_data; ss58Format := number 42 |} /\
  decode alice_polkadot_text
  = Ok {| data := alice_data; ss58Format := number 0 |} /\
  toForeignChainAddress alice_polkadot_text Dot mainnet
  = toForeignChainAddress alice_text Dot mainnet.
Proof.
  assert (H1 : decode alice_text
               = Ok {| data := alice_data; ss58Format := number 42 |})
    by (vm_compute; reflexivity).
  assert (H2 : decode alice_polkadot_text
               = Ok {| data := alice_data; ss58Format := number 0 |})
    by (vm_compute; reflexivity).
  split; [exact H1|split; [exact H2|]].
  apply (dot_address_ignores_format alice_text alice_polkadot_text _ _
           mainnet eq_refl eq_refl H1 H2 eq_refl).
Defined.

Lemma short_chain_by_chain_witness :
  (shortChain {| shortChain := "eth"; encoded := Bytes [1] |}
   = shortChain {| shortChain := "arb"; encoded := Bytes [2] |} <->
   "Ethereum"%string = "Arbitrum"%string) /\
  (shortChain {| shortChain := "eth"; encoded := Bytes [1] |}
   = shortChain {| shortChain := "eth"; encoded := Bytes [2] |} <->
   "Ethereum"%string = "Ethereum"%string).
Proof.
  split.
  - apply (short_chain_by_chain "Ethereum" "USDT" "Arbitrum" "ETH"
             Usdt ArbEth "0x01" "0x02"); vm_compute; reflexivity.
  - apply (short_chain_by_chain "Ethereum" "USDT" "Ethereum" "FLIP"
             Usdt Flip "0x01" "0x02"); vm_compute; reflexivity.
Defined.

(** X10. Encoding an address that [decode] returned and decoding the result
    gives the same address again: a text in a form that [encode] does not
    write is brought to the written form without changing the address. *)
Theorem decode_encode_decode
        {E : Externals} (text : string) (bs : list Z) (a : Address) :
  base58_decode text = Some bs -> Forall is_byte bs ->
  decode text = Ok a ->
  digest_long_enough ->
  (forall f, ss58Format a = number f ->
             base58_reads_back (wirePayload (data a) f)) ->
  exists text', encode a = Ok text' /\ decode text' = Ok a.
Proof.
  intros Hbs Hbytes Hdec Hd Hback.
  unfold decode in Hdec; rewrite Hbs in Hdec.
  destruct (decode_bytes_format_number bs a Hbytes Hdec) as (f & Hfmt & Hf).
  apply decode_bytes_Ok_inv in Hdec
    as (prefix & raw & sum & Heq & _ & Hr & Hraw & _ & _ & Hdata).
  assert (Hrawbytes : Forall is_byte raw).
  { rewrite Heq in Hbytes.
    apply Forall_app in Hbytes as [_ Hrest].
    now apply Forall_app in Hrest as [Hrest _]. }
  rewrite Uint8Array_bytes in Hdata by assumption.
  specialize (Hback f Hfmt).
  destruct a as [d fmt]; cbn [data ss58Format] in *; subst d fmt.
  exists (base58_encode (wirePayload raw f)); split.
  - now apply encode_valid.
  - unfold decode; rewrite Hback.
    now apply decode_bytes_wirePayload.
Qed.

Lemma decode_encode_decode_witness :
  decode extended_zero_text
  = Ok {| data := zero_data; ss58Format := number 0 |} /\
  exists text',
    encode {| data := zero_data; ss58Format := number 0 |} = Ok text' /\
    decode text' = Ok {| data := zero_data; ss58Format := number 0 |}.
Proof.
  assert (Hdec : decode extended_zero_text
                 = Ok {| data := zero_data; ss58Format := number 0 |})
    by (vm_compute; reflexivity).
  split; [exact Hdec|].
  apply (decode_encode_decode extended_zero_text
           ([64; 0] ++ zero_data
            ++ computeChecksum ([64; 0] ++ zero_data))).
  - vm_compute; reflexivity.
  - apply Forall_is_byte_dec; vm_compute; reflexivity.
  - exact Hdec.
  - exact reference_digest_long_enough.
  - intros f [= <-]; vm_compute; reflexivity.
Defined.
